(** * NovaCall operations console: the call-plan editor and the call session

    A shallow embedding of the state and the event handlers of
    [src/app/page.tsx] (component [HomePage]), and the properties of the
    call-session state machine checked against it.

    Conventions of the embedding.
    - A JavaScript string is the list of its UTF-16 code units ([str]).
    - The ten [useState] cells of [HomePage] are the fields of [State]; a
      setter [setX] of React is the function of the same name on [State].
    - A handler runs to completion on the state of the render that
      installed it, one event at a time, so the values it closes over
      ([activePlan], [nextTalkingPoint], ...) are those of the state it is
      applied to.
    - [makeId()] and [Date.now()] are answered by the environment: a handler
      draws each at most once, and receives the answers as an [Env]. *)

From Stdlib Require Import ZArith NArith Ascii String List Lia.
From stdpp Require Import base decidable option numbers list sorting.

Local Open Scope list_scope.
Local Open Scope nat_scope.

(* ===================================================================== *)
(** ** JavaScript strings *)
(* ===================================================================== *)

Module Js.

(** A string value: its UTF-16 code units. *)
Definition str : Type := list N.

(** A literal of the source written in ASCII. *)
Definition lit (s : string) : str :=
  (fun a => N_of_ascii a) <$> list_ascii_of_string s.

(** The code units that [String.prototype.trim] strips: the WhiteSpace and
    LineTerminator productions of ECMAScript (TAB, LF, VT, FF, CR, SP, NBSP,
    U+1680, U+2000..U+200A, LS, PS, U+202F, U+205F, U+3000, ZWNBSP). *)
Definition isWhiteSpace (c : N) : bool :=
  ((9 <=? c) && (c <=? 13))%N
  || (c =? 32)%N || (c =? 160)%N || (c =? 5760)%N
  || ((8192 <=? c) && (c <=? 8202))%N
  || (c =? 8232)%N || (c =? 8233)%N || (c =? 8239)%N || (c =? 8287)%N
  || (c =? 12288)%N || (c =? 65279)%N.

Fixpoint trimStart (s : str) : str :=
  match s with
  | [] => []
  | c :: rest => if isWhiteSpace c then trimStart rest else s
  end.

Definition trimEnd (s : str) : str := rev (trimStart (rev s)).

(** [s.trim()] *)
Definition trim (s : str) : str := trimEnd (trimStart s).

(** Truthiness of a string: only the empty string is falsy. *)
Definition truthy (s : str) : bool :=
  match s with [] => false | _ :: _ => true end.

End Js.

Abbreviation str := Js.str.
Abbreviation lit := Js.lit.

(* ===================================================================== *)
(** ** Data model *)
(* ===================================================================== *)

Inductive Emphasis : Type := high | medium | low.

Module TalkingPoint.

Record t : Type := mk {
  id : str;
  content : str;
  emphasis : Emphasis;
  delivered : bool
}.

(** [Partial<TalkingPoint>]: every field may be absent. *)
Record partial : Type := mkPartial {
  id' : option str;
  content' : option str;
  emphasis' : option Emphasis;
  delivered' : option bool
}.

(** [{ ...point, ...value }] *)
Definition merge (point : t) (value : partial) : t :=
  {| id := default (id point) (id' value);
     content := default (content point) (content' value);
     emphasis := default (emphasis point) (emphasis' value);
     delivered := default (delivered point) (delivered' value) |}.

(** [{ ...point, delivered: b }] *)
Definition with_delivered (b : bool) (point : t) : t :=
  {| id := id point; content := content point;
     emphasis := emphasis point; delivered := b |}.

End TalkingPoint.

Record CallPlan : Type := mkCallPlan {
  phoneNumber : str;
  purpose : str;
  openingDisclosure : str;
  talkingPoints : list TalkingPoint.t;
  clarifications : list str;
  handoffConditions : list str;
  additionalNotes : str
}.

(** [{ ...prev, talkingPoints: tps }] *)
Definition with_talkingPoints (tps : list TalkingPoint.t) (prev : CallPlan)
  : CallPlan :=
  {| phoneNumber := phoneNumber prev; purpose := purpose prev;
     openingDisclosure := openingDisclosure prev;
     talkingPoints := tps;
     clarifications := clarifications prev;
     handoffConditions := handoffConditions prev;
     additionalNotes := additionalNotes prev |}.

(** [{ ...prev, handoffConditions: hs }] *)
Definition with_handoffConditions (hs : list str) (prev : CallPlan)
  : CallPlan :=
  {| phoneNumber := phoneNumber prev; purpose := purpose prev;
     openingDisclosure := openingDisclosure prev;
     talkingPoints := talkingPoints prev;
     clarifications := clarifications prev;
     handoffConditions := hs;
     additionalNotes := additionalNotes prev |}.

Inductive Sender : Type := NovaCall | Caller.

Module CallMessage.

Record t : Type := mk {
  id : str;
  sender : Sender;
  content : str;
  timestamp : Z
}.

(** [Omit<CallMessage, "id" | "timestamp">] *)
Record entry : Type := mkEntry {
  sender' : Sender;
  content' : str
}.

End CallMessage.

Inductive CallStatus : Type := idle | live | handoff.

(** What the environment answers during one event. *)
Record Env : Type := mkEnv {
  makeId : str;
  Date_now : Z
}.

(** The seeded plan; its three identifiers are drawn when the module loads. *)
Definition defaultPlan (id1 id2 id3 : str) : CallPlan :=
  {| phoneNumber := lit "+1 (415) 555-0198";
     purpose := lit "Follow up on AI/ML job application status";
     openingDisclosure :=
       lit "Hi, this is NovaCall supporting Manohar Kumar Sah. I'm calling regarding your recent AI/ML application with Manohar.";
     talkingPoints :=
       [ {| TalkingPoint.id := id1;
            TalkingPoint.content :=
              lit "Ask if they received Manohar's follow-up email summarizing the AI/ML role responsibilities.";
            TalkingPoint.emphasis := high;
            TalkingPoint.delivered := false |};
         {| TalkingPoint.id := id2;
            TalkingPoint.content :=
              lit "Confirm availability for a 20-minute technical alignment call later this week.";
            TalkingPoint.emphasis := medium;
            TalkingPoint.delivered := false |};
         {| TalkingPoint.id := id3;
            TalkingPoint.content :=
              lit "Offer to share additional project highlights if they need more context before meeting.";
            TalkingPoint.emphasis := low;
            TalkingPoint.delivered := false |} ];
     clarifications :=
       [ lit "I'm helping Manohar with scheduling so he can follow up promptly"
           ++ [8212%N] ++ lit "could you clarify your question?";
         lit "I'm here to keep this brief for you. Could you share what specifically you'd like from Manohar?" ];
     handoffConditions :=
       [ lit "Caller requests to speak with Manohar directly.";
         lit "Caller is silent for more than 5 seconds after a follow-up.";
         lit "Caller asks for details beyond the provided briefing or legal commitments." ];
     additionalNotes :=
       lit "Inform the caller if recording or summarizing and capture explicit approval before logging." |}.

(** The state cells of [HomePage]. [clarificationsUsed] only ever holds a
    count (it starts at 0 and is incremented by one), hence [nat]. *)
Record State : Type := mkState {
  draftPlan : CallPlan;
  activePlan : CallPlan;
  callStatus : CallStatus;
  consentToSummarize : bool;
  summaryNotes : str;
  callLog : list CallMessage.t;
  callerEntry : str;
  clarificationsUsed : nat;
  recordingDisclosureMade : bool;
  handoffReason : option str
}.

(** The state of the first render. *)
Definition initialState (id1 id2 id3 : str) : State :=
  {| draftPlan := defaultPlan id1 id2 id3;
     activePlan := defaultPlan id1 id2 id3;
     callStatus := idle;
     consentToSummarize := false;
     summaryNotes := [];
     callLog := [];
     callerEntry := [];
     clarificationsUsed := 0;
     recordingDisclosureMade := false;
     handoffReason := None |}.

(* ===================================================================== *)
(** ** State setters *)
(* ===================================================================== *)

(** [setDraftPlan((prev) => f(prev))] *)
Definition setDraftPlan (f : CallPlan -> CallPlan) (s : State) : State :=
  {| draftPlan := f (draftPlan s); activePlan := activePlan s;
     callStatus := callStatus s;
     consentToSummarize := consentToSummarize s;
     summaryNotes := summaryNotes s; callLog := callLog s;
     callerEntry := callerEntry s;
     clarificationsUsed := clarificationsUsed s;
     recordingDisclosureMade := recordingDisclosureMade s;
     handoffReason := handoffReason s |}.

(** [setActivePlan((prev) => f(prev))]; [setActivePlan(v)] is the constant
    updater. *)
Definition setActivePlan (f : CallPlan -> CallPlan) (s : State) : State :=
  {| draftPlan := draftPlan s; activePlan := f (activePlan s);
     callStatus := callStatus s;
     consentToSummarize := consentToSummarize s;
     summaryNotes := summaryNotes s; callLog := callLog s;
     callerEntry := callerEntry s;
     clarificationsUsed := clarificationsUsed s;
     recordingDisclosureMade := recordingDisclosureMade s;
     handoffReason := handoffReason s |}.

Definition setCallStatus (v : CallStatus) (s : State) : State :=
  {| draftPlan := draftPlan s; activePlan := activePlan s;
     callStatus := v;
     consentToSummarize := consentToSummarize s;
     summaryNotes := summaryNotes s; callLog := callLog s;
     callerEntry := callerEntry s;
     clarificationsUsed := clarificationsUsed s;
     recordingDisclosureMade := recordingDisclosureMade s;
     handoffReason := handoffReason s |}.

Definition setConsentToSummarize (v : bool) (s : State) : State :=
  {| draftPlan := draftPlan s; activePlan := activePlan s;
     callStatus := callStatus s;
     consentToSummarize := v;
     summaryNotes := summaryNotes s; callLog := callLog s;
     callerEntry := callerEntry s;
     clarificationsUsed := clarificationsUsed s;
     recordingDisclosureMade := recordingDisclosureMade s;
     handoffReason := handoffReason s |}.

Definition setSummaryNotes (v : str) (s : State) : State :=
  {| draftPlan := draftPlan s; activePlan := activePlan s;
     callStatus := callStatus s;
     consentToSummarize := consentToSummarize s;
     summaryNotes := v; callLog := callLog s;
     callerEntry := callerEntry s;
     clarificationsUsed := clarificationsUsed s;
     recordingDisclosureMade := recordingDisclosureMade s;
     handoffReason := handoffReason s |}.

(** [setCallLog((prev) => f(prev))]; [setCallLog([])] is the constant
    updater. *)
Definition setCallLog (f : list CallMessage.t -> list CallMessage.t)
  (s : State) : State :=
  {| draftPlan := draftPlan s; activePlan := activePlan s;
     callStatus := callStatus s;
     consentToSummarize := consentToSummarize s;
     summaryNotes := summaryNotes s; callLog := f (callLog s);
     callerEntry := callerEntry s;
     clarificationsUsed := clarificationsUsed s;
     recordingDisclosureMade := recordingDisclosureMade s;
     handoffReason := handoffReason s |}.

Definition setCallerEntry (v : str) (s : State) : State :=
  {| draftPlan := draftPlan s; activePlan := activePlan s;
     callStatus := callStatus s;
     consentToSummarize := consentToSummarize s;
     summaryNotes := summaryNotes s; callLog := callLog s;
     callerEntry := v;
     clarificationsUsed := clarificationsUsed s;
     recordingDisclosureMade := recordingDisclosureMade s;
     handoffReason := handoffReason s |}.

(** [setClarificationsUsed((prev) => f(prev))]; [setClarificationsUsed(0)]
    is the constant updater. *)
Definition setClarificationsUsed (f : nat -> nat) (s : State) : State :=
  {| draftPlan := draftPlan s; activePlan := activePlan s;
     callStatus := callStatus s;
     consentToSummarize := consentToSummarize s;
     summaryNotes := summaryNotes s; callLog := callLog s;
     callerEntry := callerEntry s;
     clarificationsUsed := f (clarificationsUsed s);
     recordingDisclosureMade := recordingDisclosureMade s;
     handoffReason := handoffReason s |}.

Definition setRecordingDisclosureMade (v : bool) (s : State) : State :=
  {| draftPlan := draftPlan s; activePlan := activePlan s;
     callStatus := callStatus s;
     consentToSummarize := consentToSummarize s;
     summaryNotes := summaryNotes s; callLog := callLog s;
     callerEntry := callerEntry s;
     clarificationsUsed := clarificationsUsed s;
     recordingDisclosureMade := v;
     handoffReason := handoffReason s |}.

Definition setHandoffReason (v : option str) (s : State) : State :=
  {| draftPlan := draftPlan s; activePlan := activePlan s;
     callStatus := callStatus s;
     consentToSummarize := consentToSummarize s;
     summaryNotes := summaryNotes s; callLog := callLog s;
     callerEntry := callerEntry s;
     clarificationsUsed := clarificationsUsed s;
     recordingDisclosureMade := recordingDisclosureMade s;
     handoffReason := v |}.

(* ===================================================================== *)
(** ** Derived values *)
(* ===================================================================== *)

(** [activePlan.talkingPoints.find((point) => !point.delivered)] *)
Definition nextTalkingPoint (s : State) : option TalkingPoint.t :=
  List.find (fun point => negb (TalkingPoint.delivered point))
    (talkingPoints (activePlan s)).

(** [clarificationsUsed < activePlan.clarifications.length] *)
Definition canUseClarification (s : State) : bool :=
  clarificationsUsed s <? length (clarifications (activePlan s)).

(** [activePlan.talkingPoints.filter((point) => point.delivered).length] *)
Definition completedTalkingPoints (s : State) : nat :=
  length (List.filter TalkingPoint.delivered (talkingPoints (activePlan s))).

(* ===================================================================== *)
(** ** Plan editor handlers *)
(* ===================================================================== *)

(** A key of [CallPlan] together with a value of that key's type. *)
Inductive PlanField : Type :=
  | phoneNumber_is (v : str)
  | purpose_is (v : str)
  | openingDisclosure_is (v : str)
  | talkingPoints_is (v : list TalkingPoint.t)
  | clarifications_is (v : list str)
  | handoffConditions_is (v : list str)
  | additionalNotes_is (v : str).

(** [{ ...prev, [key]: value }] *)
Definition with_field (kv : PlanField) (prev : CallPlan) : CallPlan :=
  {| phoneNumber :=
       match kv with phoneNumber_is v => v | _ => phoneNumber prev end;
     purpose :=
       match kv with purpose_is v => v | _ => purpose prev end;
     openingDisclosure :=
       match kv with
       | openingDisclosure_is v => v | _ => openingDisclosure prev
       end;
     talkingPoints :=
       match kv with talkingPoints_is v => v | _ => talkingPoints prev end;
     clarifications :=
       match kv with clarifications_is v => v | _ => clarifications prev end;
     handoffConditions :=
       match kv with
       | handoffConditions_is v => v | _ => handoffConditions prev
       end;
     additionalNotes :=
       match kv with
       | additionalNotes_is v => v | _ => additionalNotes prev
       end |}.

Definition handlePlanFieldChange (kv : PlanField) (s : State) : State :=
  setDraftPlan (with_field kv) s.

(** [index] is a JavaScript number; an array index [idx] is strictly equal
    to it only when [index] is that same non-negative integer. *)
Definition handleTalkingPointChange (index : Z) (value : TalkingPoint.partial)
  (s : State) : State :=
  setDraftPlan (fun prev =>
    with_talkingPoints
      (imap (fun idx point =>
               if decide (Z.of_nat idx = index)
               then TalkingPoint.merge point value else point)
            (talkingPoints prev))
      prev) s.

Definition addTalkingPoint (env : Env) (s : State) : State :=
  setDraftPlan (fun prev =>
    with_talkingPoints
      (talkingPoints prev ++
         [ {| TalkingPoint.id := makeId env;
              TalkingPoint.content := [];
              TalkingPoint.emphasis := low;
              TalkingPoint.delivered := false |} ])
      prev) s.

Definition removeTalkingPoint (id : str) (s : State) : State :=
  setDraftPlan (fun prev =>
    with_talkingPoints
      (filter (fun point => TalkingPoint.id point <> id) (talkingPoints prev))
      prev) s.

Definition handleHandoffConditionChange (index : Z) (value : str)
  (s : State) : State :=
  setDraftPlan (fun prev =>
    with_handoffConditions
      (imap (fun idx condition =>
               if decide (Z.of_nat idx = index) then value else condition)
            (handoffConditions prev))
      prev) s.

Definition addHandoffCondition (s : State) : State :=
  setDraftPlan (fun prev =>
    with_handoffConditions (handoffConditions prev ++ [ [] ]) prev) s.

(** [filter((_, idx) => idx !== index)]: the filter sees each element with
    its position. *)
Definition removeHandoffCondition (index : Z) (s : State) : State :=
  setDraftPlan (fun prev =>
    with_handoffConditions
      (snd <$> filter (fun ic : nat * str => Z.of_nat (fst ic) <> index)
                 (imap pair (handoffConditions prev)))
      prev) s.

(* ===================================================================== *)
(** ** Call session handlers *)
(* ===================================================================== *)

Definition loadDraftToActive (s : State) : State :=
  let s1 :=
    setActivePlan (fun _ =>
      with_talkingPoints
        (TalkingPoint.with_delivered false <$> talkingPoints (draftPlan s))
        (draftPlan s)) s in
  let s2 := setCallStatus idle s1 in
  let s3 := setCallLog (fun _ => []) s2 in
  let s4 := setCallerEntry [] s3 in
  let s5 := setClarificationsUsed (fun _ => 0) s4 in
  let s6 := setConsentToSummarize false s5 in
  let s7 := setSummaryNotes [] s6 in
  let s8 := setRecordingDisclosureMade false s7 in
  setHandoffReason None s8.

(** [{ ...point, delivered: !point.delivered }] for every point whose
    identifier is [id]. *)
Definition toggle_point (id : str) (point : TalkingPoint.t) : TalkingPoint.t :=
  if decide (TalkingPoint.id point = id)
  then TalkingPoint.with_delivered (negb (TalkingPoint.delivered point)) point
  else point.

Definition toggleTalkingPointDelivered (id : str) (s : State) : State :=
  setActivePlan (fun prev =>
    with_talkingPoints (toggle_point id <$> talkingPoints prev) prev) s.

(** [{ id: makeId(), timestamp: Date.now(), ...entry }] *)
Definition message (env : Env) (entry : CallMessage.entry) : CallMessage.t :=
  {| CallMessage.id := makeId env;
     CallMessage.timestamp := Date_now env;
     CallMessage.sender := CallMessage.sender' entry;
     CallMessage.content := CallMessage.content' entry |}.

Definition pushLogEntry (env : Env) (entry : CallMessage.entry) (s : State)
  : State :=
  setCallLog (fun prev => prev ++ [ message env entry ]) s.

Definition startCall (env : Env) (s : State) : State :=
  let s1 := setCallStatus live s in
  pushLogEntry env
    {| CallMessage.sender' := NovaCall;
       CallMessage.content' := openingDisclosure (activePlan s) |} s1.

Definition respondWithNextPoint (env : Env) (s : State) : State :=
  match nextTalkingPoint s with
  | None => s
  | Some point =>
      let s1 := toggleTalkingPointDelivered (TalkingPoint.id point) s in
      pushLogEntry env
        {| CallMessage.sender' := NovaCall;
           CallMessage.content' := TalkingPoint.content point |} s1
  end.

Definition addCallerEntry (env : Env) (s : State) : State :=
  if negb (Js.truthy (Js.trim (callerEntry s))) then s
  else
    let s1 :=
      pushLogEntry env
        {| CallMessage.sender' := Caller;
           CallMessage.content' := Js.trim (callerEntry s) |} s in
    setCallerEntry [] s1.

(** The prompt used when [clarifications[clarificationsUsed]] is
    [undefined]. *)
Definition genericClarification : str :=
  lit "I'm assisting Manohar today" ++ [8212%N]
    ++ lit "could you share a little more?".

Definition useClarification (env : Env) (s : State) : State :=
  if negb (canUseClarification s) then s
  else
    let clarification :=
      default genericClarification
        (clarifications (activePlan s) !! clarificationsUsed s) in
    let s1 :=
      pushLogEntry env
        {| CallMessage.sender' := NovaCall;
           CallMessage.content' := clarification |} s in
    setClarificationsUsed (fun prev => prev + 1) s1.

Definition executeHandoff (env : Env) (condition : str) (s : State) : State :=
  let s1 := setCallStatus handoff s in
  let s2 := setHandoffReason (Some condition) s1 in
  pushLogEntry env
    {| CallMessage.sender' := NovaCall;
       CallMessage.content' :=
         lit "Let me connect you directly with Manohar." |} s2.

(* ===================================================================== *)
(** ** The page as a transition system *)
(* ===================================================================== *)

(** One call of a handler (or of a state setter that the page passes to a
    control directly). *)
Inductive Action : Type :=
  | HandlePlanFieldChange (kv : PlanField)
  | HandleTalkingPointChange (index : Z) (value : TalkingPoint.partial)
  | AddTalkingPoint
  | RemoveTalkingPoint (id : str)
  | HandleHandoffConditionChange (index : Z) (value : str)
  | AddHandoffCondition
  | RemoveHandoffCondition (index : Z)
  | LoadDraftToActive
  | ToggleTalkingPointDelivered (id : str)
  | StartCall
  | RespondWithNextPoint
  | SetCallerEntry (value : str)
  | AddCallerEntry
  | UseClarification
  | ExecuteHandoff (condition : str)
  | SetRecordingDisclosureMade (value : bool)
  | SetConsentToSummarize (value : bool)
  | SetSummaryNotes (value : str).

(** The handler called, with no regard for whether its control is usable. *)
Definition handle (env : Env) (a : Action) (s : State) : State :=
  match a with
  | HandlePlanFieldChange kv => handlePlanFieldChange kv s
  | HandleTalkingPointChange index value =>
      handleTalkingPointChange index value s
  | AddTalkingPoint => addTalkingPoint env s
  | RemoveTalkingPoint id => removeTalkingPoint id s
  | HandleHandoffConditionChange index value =>
      handleHandoffConditionChange index value s
  | AddHandoffCondition => addHandoffCondition s
  | RemoveHandoffCondition index => removeHandoffCondition index s
  | LoadDraftToActive => loadDraftToActive s
  | ToggleTalkingPointDelivered id => toggleTalkingPointDelivered id s
  | StartCall => startCall env s
  | RespondWithNextPoint => respondWithNextPoint env s
  | SetCallerEntry value => setCallerEntry value s
  | AddCallerEntry => addCallerEntry env s
  | UseClarification => useClarification env s
  | ExecuteHandoff condition => executeHandoff env condition s
  | SetRecordingDisclosureMade value => setRecordingDisclosureMade value s
  | SetConsentToSummarize value => setConsentToSummarize value s
  | SetSummaryNotes value => setSummaryNotes value s
  end.

(** Whether the control bound to an action can fire in the rendered state:
    the [disabled] attributes of [CallConsole] (start button, clarification
    button, summary textarea) and the "Respond with next point" button, which
    is rendered only while a next point exists. Every other control is always
    usable. *)
Definition enabled (s : State) (a : Action) : bool :=
  match a with
  | StartCall =>
      match callStatus s with idle => true | _ => false end
  | UseClarification => canUseClarification s
  | SetSummaryNotes _ => consentToSummarize s
  | RespondWithNextPoint =>
      match nextTalkingPoint s with Some _ => true | None => false end
  | _ => true
  end.

(** A user event on the rendered page: a disabled or absent control fires
    nothing. *)
Definition dispatch (env : Env) (a : Action) (s : State) : State :=
  if enabled s a then handle env a s else s.

(** A sequence of handler calls, each with the environment's answers. *)
Definition run (calls : list (Env * Action)) (s : State) : State :=
  foldl (fun st ea => handle (fst ea) (snd ea) st) s calls.

(** A sequence of user events on the page. *)
Definition interact (events : list (Env * Action)) (s : State) : State :=
  foldl (fun st ea => dispatch (fst ea) (snd ea) st) s events.

(** [n] calls of one handler, the [k]-th with the [k]-th environment. *)
Definition repeatedly (h : Env -> State -> State) (envs : list Env)
  (s : State) : State :=
  foldl (fun st env => h env st) s envs.

(* ===================================================================== *)
(** ** Notions used to state the properties *)
(* ===================================================================== *)

(** The identifiers of a plan's talking points, in plan order. *)
Definition ids (plan : CallPlan) : list str :=
  TalkingPoint.id <$> talkingPoints plan.

(** Both plans list each identifier once. *)
Definition distinct_ids (s : State) : Prop :=
  NoDup (ids (draftPlan s)) /\ NoDup (ids (activePlan s)).

(** The point that [addTalkingPoint] appends. *)
Definition newTalkingPoint (env : Env) : TalkingPoint.t :=
  {| TalkingPoint.id := makeId env;
     TalkingPoint.content := [];
     TalkingPoint.emphasis := low;
     TalkingPoint.delivered := false |}.

Definition is_add_or_remove (a : Action) : Prop :=
  match a with
  | AddTalkingPoint | RemoveTalkingPoint _ => True
  | _ => False
  end.

(** The points appended by the [addTalkingPoint] calls of a sequence, in
    the order of the calls. *)
Definition created (calls : list (Env * Action)) : list TalkingPoint.t :=
  omap (fun ea =>
          match snd ea with
          | AddTalkingPoint => Some (newTalkingPoint (fst ea))
          | _ => None
          end) calls.

(** What the rendered page passes to a handler: the editor's inputs call
    [handlePlanFieldChange] on the four text fields only, a talking point's
    editor passes a content or an emphasis and never an identifier, and
    [makeId()] answers an identifier that no point of the draft carries. *)
Definition rendered (s : State) (env : Env) (a : Action) : Prop :=
  match a with
  | HandlePlanFieldChange kv =>
      match kv with
      | talkingPoints_is _ | clarifications_is _ | handoffConditions_is _ =>
          False
      | _ => True
      end
  | HandleTalkingPointChange _ value => TalkingPoint.id' value = None
  | AddTalkingPoint => makeId env ∉ ids (draftPlan s)
  | _ => True
  end.

(** The states of the page: the first render, with three distinct seeded
    identifiers, and what user events make of it. *)
Inductive reachable : State -> Prop :=
  | reachable_first (id1 id2 id3 : str) :
      NoDup [id1; id2; id3] -> reachable (initialState id1 id2 id3)
  | reachable_event (s : State) (env : Env) (a : Action) :
      reachable s -> rendered s env a -> reachable (dispatch env a s).

(** The counter stays within the active plan's list of clarifications. *)
Definition within_budget (s : State) : Prop :=
  clarificationsUsed s <= length (clarifications (activePlan s)).

(** The log entry of a clarification prompt. *)
Definition clarification_message (env : Env) (text : str) : CallMessage.t :=
  {| CallMessage.id := makeId env;
     CallMessage.sender := NovaCall;
     CallMessage.content := text;
     CallMessage.timestamp := Date_now env |}.

(** The log entry of a delivered talking point. *)
Definition point_message (env : Env) (point : TalkingPoint.t)
  : CallMessage.t :=
  {| CallMessage.id := makeId env;
     CallMessage.sender := NovaCall;
     CallMessage.content := TalkingPoint.content point;
     CallMessage.timestamp := Date_now env |}.

(** The state with another log and another counter. *)
Definition with_log_and_count (log : list CallMessage.t) (count : nat)
  (s : State) : State :=
  {| draftPlan := draftPlan s;
     activePlan := activePlan s;
     callStatus := callStatus s;
     consentToSummarize := consentToSummarize s;
     summaryNotes := summaryNotes s;
     callLog := log;
     callerEntry := callerEntry s;
     clarificationsUsed := count;
     recordingDisclosureMade := recordingDisclosureMade s;
     handoffReason := handoffReason s |}.

(** The state with other talking points in the active plan and another
    log. *)
Definition with_points_and_log (tps : list TalkingPoint.t)
  (log : list CallMessage.t) (s : State) : State :=
  {| draftPlan := draftPlan s;
     activePlan := with_talkingPoints tps (activePlan s);
     callStatus := callStatus s;
     consentToSummarize := consentToSummarize s;
     summaryNotes := summaryNotes s;
     callLog := log;
     callerEntry := callerEntry s;
     clarificationsUsed := clarificationsUsed s;
     recordingDisclosureMade := recordingDisclosureMade s;
     handoffReason := handoffReason s |}.

(** Concrete values used by the examples below. *)
Definition env0 : Env := {| makeId := lit "m-0"; Date_now := 1000 |}.
Definition env1 : Env := {| makeId := lit "m-1"; Date_now := 1001 |}.
Definition env2 : Env := {| makeId := lit "m-2"; Date_now := 1002 |}.
Definition env3 : Env := {| makeId := lit "m-3"; Date_now := 1003 |}.

Definition seeded : State := initialState (lit "a") (lit "b") (lit "c").

(** The seeded session after the call was started. *)
Definition seeded_live : State := startCall env0 seeded.

(** The seeded session after the call was started and handed off. *)
Definition seeded_handoff : State :=
  executeHandoff env1
    (lit "Caller requests to speak with Manohar directly.") seeded_live.

(** The seeded draft after: add, remove the second seeded point, add,
    remove the first added point. *)
Definition edit_session : list (Env * Action) :=
  [ (env1, AddTalkingPoint);
    (env0, RemoveTalkingPoint (lit "b"));
    (env2, AddTalkingPoint);
    (env0, RemoveTalkingPoint (lit "m-1")) ].

(* ===================================================================== *)
(** ** What the console renders *)
(* ===================================================================== *)

Module JsArray.

Section Sort.

Context {A : Type} (compareFn : A -> A -> Z).

(** [x] is placed before the first element that it does not compare greater
    than. *)
Fixpoint insert (x : A) (sorted : list A) : list A :=
  match sorted with
  | [] => [x]
  | y :: rest =>
      if (compareFn x y <=? 0)%Z then x :: y :: rest
      else y :: insert x rest
  end.

(** [[...l].sort(compareFn)]. The sort of ECMAScript is stable, which fixes
    its result for a comparator that orders by a key: the sorted arrangement
    in which elements that compare equal keep their order. It is built here
    by inserting from the right. *)
Definition sort (l : list A) : list A := foldr insert [] l.

End Sort.

End JsArray.

(** [[...callLog].sort((a, b) => a.timestamp - b.timestamp)] *)
Definition sortedLog (s : State) : list CallMessage.t :=
  JsArray.sort
    (fun a b => (CallMessage.timestamp a - CallMessage.timestamp b)%Z)
    (callLog s).

(** [handoffReason && (...)]: the escalation banner is rendered when the
    reason is a non-empty string. *)
Definition handoffReasonShown (s : State) : bool :=
  match handoffReason s with
  | Some reason => Js.truthy reason
  | None => false
  end.

(* ===================================================================== *)
(** ** Further notions used to state properties *)
(* ===================================================================== *)

(** The handlers that the plan editor is given. *)
Definition is_editor (a : Action) : bool :=
  match a with
  | HandlePlanFieldChange _ | HandleTalkingPointChange _ _
  | AddTalkingPoint | RemoveTalkingPoint _
  | HandleHandoffConditionChange _ _ | AddHandoffCondition
  | RemoveHandoffCondition _ => true
  | _ => false
  end.


(** Every entry sent by the caller holds a non-empty text with no white
    space at either end. *)
Definition caller_entries_trimmed (log : list CallMessage.t) : Prop :=
  Forall (fun m =>
            CallMessage.sender m = Caller ->
            CallMessage.content m <> []
            /\ Js.trim (CallMessage.content m) = CallMessage.content m) log.

(** A live call has its opening disclosure in the log. *)
Definition opening_logged (s : State) : Prop :=
  callStatus s = live ->
  exists m, m ∈ callLog s
            /\ CallMessage.sender m = NovaCall
            /\ CallMessage.content m = openingDisclosure (activePlan s).

(** The log is in the order of its timestamps. *)
Definition chronological (log : list CallMessage.t) : Prop :=
  StronglySorted Z.le (CallMessage.timestamp <$> log).

(** The clock reads no earlier than any logged entry. *)
Definition clock_not_behind (env : Env) (s : State) : Prop :=
  Forall (fun m => (CallMessage.timestamp m <= Date_now env)%Z) (callLog s).

(** The log entry that announces the transfer. *)
Definition handoff_message (env : Env) : CallMessage.t :=
  {| CallMessage.id := makeId env;
     CallMessage.sender := NovaCall;
     CallMessage.content := lit "Let me connect you directly with Manohar.";
     CallMessage.timestamp := Date_now env |}.

(** A handoff reason is recorded exactly on a handed-off session. *)
Definition reason_matches_status (s : State) : Prop :=
  callStatus s = handoff <-> handoffReason s <> None.

(** A call: started, one point delivered by hand, a caller entry typed and
    logged, a clarification sent, handed off. *)
Definition call_session : list (Env * Action) :=
  [ (env0, StartCall);
    (env0, ToggleTalkingPointDelivered (lit "b"));
    (env0, SetCallerEntry (lit " yes, Friday works "));
    (env1, AddCallerEntry);
    (env2, UseClarification);
    (env3, ExecuteHandoff (lit "Caller requests to speak with Manohar directly.")) ].

(** The seeded session with its first point already marked by hand. *)
Definition first_marked : State :=
  toggleTalkingPointDelivered (lit "a") seeded.

(* ===================================================================== *)
(** ** Loading the draft *)
(* ===================================================================== *)

Section Load.

Variable s : State.

Lemma load_talkingPoints :
  talkingPoints (activePlan (loadDraftToActive s))
  = TalkingPoint.with_delivered false <$> talkingPoints (draftPlan s).
Proof. reflexivity. Qed.

Lemma load_point_lookup (i : nat) :
  talkingPoints (activePlan (loadDraftToActive s)) !! i
  = TalkingPoint.with_delivered false <$> talkingPoints (draftPlan s) !! i.
Proof. rewrite load_talkingPoints. apply list_lookup_fmap. Qed.

Lemma load_none_delivered :
  Forall (fun point => TalkingPoint.delivered point = false)
    (talkingPoints (activePlan (loadDraftToActive s))).
Proof.
  rewrite load_talkingPoints. apply Forall_fmap, Forall_forall.
  intros point _. reflexivity.
Qed.

End Load.

(** C3. From every state and for every draft, loading the draft makes the
    active plan the draft with every talking point's [delivered] forced to
    [false] (same scalar fields, same clarifications and handoff conditions,
    same points position by position up to that flag), and resets the
    session: status idle, empty log, counter 0, consent off, empty summary,
    recording disclosure off, no handoff reason, empty pending caller entry.
    The draft itself is untouched. *)
Theorem load_resets_session (s : State) :
  let s' := loadDraftToActive s in
  let draft := draftPlan s in
  phoneNumber (activePlan s') = phoneNumber draft
  /\ purpose (activePlan s') = purpose draft
  /\ openingDisclosure (activePlan s') = openingDisclosure draft
  /\ clarifications (activePlan s') = clarifications draft
  /\ handoffConditions (activePlan s') = handoffConditions draft
  /\ additionalNotes (activePlan s') = additionalNotes draft
  /\ length (talkingPoints (activePlan s')) = length (talkingPoints draft)
  /\ (forall i : nat,
        talkingPoints (activePlan s') !! i
        = (fun point =>
             {| TalkingPoint.id := TalkingPoint.id point;
                TalkingPoint.content := TalkingPoint.content point;
                TalkingPoint.emphasis := TalkingPoint.emphasis point;
                TalkingPoint.delivered := false |})
          <$> talkingPoints draft !! i)
  /\ Forall (fun point => TalkingPoint.delivered point = false)
       (talkingPoints (activePlan s'))
  /\ callStatus s' = idle
  /\ callLog s' = []
  /\ clarificationsUsed s' = 0
  /\ consentToSummarize s' = false
  /\ summaryNotes s' = []
  /\ recordingDisclosureMade s' = false
  /\ handoffReason s' = None
  /\ callerEntry s' = []
  /\ draftPlan s' = draft.
Proof.
  cbv zeta. repeat split; try reflexivity.
  - rewrite load_talkingPoints. apply length_fmap.
  - intros i. apply load_point_lookup.
  - apply load_none_delivered.
Qed.

(* ===================================================================== *)
(** ** Starting the call *)
(* ===================================================================== *)

(** [startCall] has no guard of its own: on a live session it appends a
    second opening disclosure. *)
Lemma startCall_on_live_session_appends :
  callStatus seeded_live = live
  /\ length (callLog seeded_live) = 1
  /\ length (callLog (startCall env1 seeded_live)) = 2
  /\ startCall env1 seeded_live <> seeded_live.
Proof.
  repeat split; try reflexivity.
  intros E. apply (f_equal (fun st => length (callLog st))) in E.
  vm_compute in E. discriminate E.
Qed.

(** C1 (as the code has it). Whatever the status, [startCall] sets the
    status to live and appends exactly one NovaCall entry whose content is
    the active plan's opening disclosure, leaving every other cell as it
    was. The restriction to idle sessions is the start button's [disabled]
    attribute: the click runs [startCall] on an idle session and does
    nothing on a live or handed-off one. *)
Theorem startCall_effect (env : Env) (s : State) :
  startCall env s
  = {| draftPlan := draftPlan s;
       activePlan := activePlan s;
       callStatus := live;
       consentToSummarize := consentToSummarize s;
       summaryNotes := summaryNotes s;
       callLog :=
         callLog s ++
           [ {| CallMessage.id := makeId env;
                CallMessage.sender := NovaCall;
                CallMessage.content := openingDisclosure (activePlan s);
                CallMessage.timestamp := Date_now env |} ];
       callerEntry := callerEntry s;
       clarificationsUsed := clarificationsUsed s;
       recordingDisclosureMade := recordingDisclosureMade s;
       handoffReason := handoffReason s |}
  /\ dispatch env StartCall s
     = match callStatus s with
       | idle => startCall env s
       | live | handoff => s
       end.
Proof.
  split; [reflexivity |].
  unfold dispatch. simpl. destruct (callStatus s); reflexivity.
Qed.

(* ===================================================================== *)
(** ** Handoff *)
(* ===================================================================== *)

(** [startCall] called on a handed-off session makes it live again. *)
Lemma startCall_leaves_handoff :
  callStatus seeded_handoff = handoff
  /\ callStatus (handle env2 StartCall seeded_handoff) = live
  /\ callStatus (startCall env2 seeded_handoff) <> handoff.
Proof. repeat split. discriminate. Qed.

Lemma respondWithNextPoint_callStatus (env : Env) (s : State) :
  callStatus (respondWithNextPoint env s) = callStatus s.
Proof.
  unfold respondWithNextPoint. destruct (nextTalkingPoint s); reflexivity.
Qed.

Lemma addCallerEntry_callStatus (env : Env) (s : State) :
  callStatus (addCallerEntry env s) = callStatus s.
Proof.
  unfold addCallerEntry.
  destruct (negb (Js.truthy (Js.trim (callerEntry s)))); reflexivity.
Qed.

Lemma useClarification_callStatus (env : Env) (s : State) :
  callStatus (useClarification env s) = callStatus s.
Proof.
  unfold useClarification. destruct (negb (canUseClarification s));
    reflexivity.
Qed.

(** The status after a handler call, as a function of the status before. *)
Lemma handle_callStatus (env : Env) (a : Action) (s : State) :
  callStatus (handle env a s)
  = match a with
    | LoadDraftToActive => idle
    | StartCall => live
    | ExecuteHandoff _ => handoff
    | _ => callStatus s
    end.
Proof.
  destruct a; simpl;
    auto using respondWithNextPoint_callStatus, addCallerEntry_callStatus,
      useClarification_callStatus.
Qed.

(** The status after a user event on a handed-off session. *)
Lemma dispatch_callStatus_handoff (env : Env) (a : Action) (s : State) :
  callStatus s = handoff ->
  callStatus (dispatch env a s)
  = match a with
    | LoadDraftToActive => idle
    | _ => handoff
    end.
Proof.
  intros Hs. unfold dispatch. destruct (enabled s a) eqn:En.
  - rewrite handle_callStatus, Hs.
    destruct a; try reflexivity.
    simpl in En. rewrite Hs in En. discriminate En.
  - rewrite Hs. destruct a; try reflexivity. discriminate En.
Qed.

(** C2 (as the code has it). On a handed-off session every handler other
    than [loadDraftToActive] and [startCall] leaves the status at handoff;
    [loadDraftToActive] makes it idle and [startCall], if it is called,
    makes it live. On the rendered page the start button is disabled, so
    every user event other than the load keeps the status at handoff. *)
Theorem handoff_left_only_by_load (env : Env) (a : Action) (s : State) :
  callStatus s = handoff ->
  callStatus (handle env a s)
  = match a with
    | LoadDraftToActive => idle
    | StartCall => live
    | _ => handoff
    end
  /\ callStatus (dispatch env a s)
     = match a with
       | LoadDraftToActive => idle
       | _ => handoff
       end.
Proof.
  intros Hs. split.
  - rewrite handle_callStatus, Hs. destruct a; reflexivity.
  - apply dispatch_callStatus_handoff, Hs.
Qed.

Lemma handoff_left_only_by_load_witness :
  callStatus seeded_handoff = handoff
  /\ callStatus (handle env2 RespondWithNextPoint seeded_handoff) = handoff
  /\ callStatus (dispatch env2 RespondWithNextPoint seeded_handoff) = handoff.
Proof.
  split; [reflexivity |].
  apply (handoff_left_only_by_load env2 RespondWithNextPoint seeded_handoff).
  reflexivity.
Defined.

(** Through the page, a handed-off session stays handed off until the plan
    is loaded again. *)
Lemma handoff_persists (events : list (Env * Action)) (s : State) :
  callStatus s = handoff ->
  Forall (fun ea => snd ea <> LoadDraftToActive) events ->
  callStatus (interact events s) = handoff.
Proof.
  unfold interact. revert s.
  induction events as [| [env a] events IH]; intros s Hs Hev; [exact Hs |].
  apply Forall_cons in Hev as [Ha Hev]. simpl. apply IH; [| exact Hev].
  rewrite (dispatch_callStatus_handoff env a s Hs). destruct a; try reflexivity. contradiction Ha; reflexivity.
Qed.

(* ===================================================================== *)
(** ** The post-call summary *)
(* ===================================================================== *)

(** C9. [setSummaryNotes] is the bare state setter: for every state and
    text it stores the text and touches nothing else, the consent flag
    included, and it commutes with any setting of that flag, so the flag has
    no effect on the write. Only the rendered textarea is gated: with consent
    off the control is disabled and the user event does nothing. *)
Theorem setSummaryNotes_ignores_consent
  (env : Env) (text : str) (b : bool) (s : State) :
  handle env (SetSummaryNotes text) s
  = {| draftPlan := draftPlan s;
       activePlan := activePlan s;
       callStatus := callStatus s;
       consentToSummarize := consentToSummarize s;
       summaryNotes := text;
       callLog := callLog s;
       callerEntry := callerEntry s;
       clarificationsUsed := clarificationsUsed s;
       recordingDisclosureMade := recordingDisclosureMade s;
       handoffReason := handoffReason s |}
  /\ summaryNotes (handle env (SetSummaryNotes text)
                     (setConsentToSummarize false s)) = text
  /\ handle env (SetSummaryNotes text) (setConsentToSummarize b s)
     = setConsentToSummarize b (handle env (SetSummaryNotes text) s)
  /\ dispatch env (SetSummaryNotes text) s
     = if consentToSummarize s then setSummaryNotes text s else s.
Proof. repeat split. Qed.

(** A summary written into the seeded session, whose consent flag is off. *)
Example summary_written_without_consent :
  consentToSummarize seeded = false
  /\ summaryNotes (setSummaryNotes (lit "call back Friday") seeded)
     = lit "call back Friday".
Proof. split; reflexivity. Qed.

(* ===================================================================== *)
(** ** Logging what the caller says *)
(* ===================================================================== *)

Section Trim.

Let ws (c : N) : Prop := Js.isWhiteSpace c = true.

Lemma trimStart_split (s : str) :
  exists l, s = l ++ Js.trimStart s /\ Forall ws l.
Proof.
  induction s as [| c s [l [E F]]]; [exists []; split; [reflexivity | constructor] |].
  simpl. destruct (Js.isWhiteSpace c) eqn:W.
  - exists (c :: l). split; [simpl; congruence | constructor; assumption].
  - exists []. split; [reflexivity | constructor].
Qed.

Lemma trimStart_head (s : str) (c : N) (t : str) :
  Js.trimStart s = c :: t -> Js.isWhiteSpace c = false.
Proof.
  induction s as [| d s IH]; simpl; [discriminate |].
  destruct (Js.isWhiteSpace d) eqn:W; [exact IH |].
  intros E. injection E as -> _. exact W.
Qed.

Lemma trimStart_all_ws (s : str) : Forall ws s -> Js.trimStart s = [].
Proof.
  induction 1 as [| c s W _ IH]; [reflexivity |].
  simpl. unfold ws in W. rewrite W. exact IH.
Qed.

Lemma trimStart_nil (s : str) : Js.trimStart s = [] -> Forall ws s.
Proof.
  destruct (trimStart_split s) as [l [E F]]. intros Z0.
  rewrite Z0, app_nil_r in E. subst l. exact F.
Qed.

Lemma trimStart_keeps (c : N) (t : str) :
  Js.isWhiteSpace c = false -> Js.trimStart (c :: t) = c :: t.
Proof. intros W. simpl. rewrite W. reflexivity. Qed.

(** The trimmed text is empty exactly when the text is all white space. *)
Lemma trim_nil_iff (s : str) : Js.trim s = [] <-> Forall ws s.
Proof.
  unfold Js.trim, Js.trimEnd. split.
  - intros E. apply trimStart_nil.
    apply (f_equal (@rev N)) in E. rewrite rev_involutive in E. simpl in E.
    apply trimStart_nil in E. apply Forall_rev in E.
    rewrite rev_involutive in E.
    destruct (Js.trimStart s) as [| c t] eqn:T; [reflexivity |].
    apply trimStart_head in T. apply Forall_cons in E as [W _].
    unfold ws in W. congruence.
  - intros F. rewrite (trimStart_all_ws s F). reflexivity.
Qed.

(** The trimmed text sits inside the text between two runs of white space. *)
Lemma trim_split (s : str) :
  exists l r, s = l ++ Js.trim s ++ r /\ Forall ws l /\ Forall ws r.
Proof.
  destruct (trimStart_split s) as [l [E F]].
  destruct (trimStart_split (rev (Js.trimStart s))) as [r [E' F']].
  exists l, (rev r). repeat split.
  - rewrite E at 1. f_equal. unfold Js.trim, Js.trimEnd.
    rewrite <- rev_app_distr, <- E', rev_involutive. reflexivity.
  - exact F.
  - apply Forall_rev, F'.
Qed.

(** A non-empty trimmed text starts and ends with a character that is not
    white space. *)
Lemma trim_ends (s : str) (c : N) :
  head (Js.trim s) = Some c \/ last (Js.trim s) = Some c ->
  Js.isWhiteSpace c = false.
Proof.
  unfold Js.trim, Js.trimEnd.
  destruct (Js.trimStart (rev (Js.trimStart s))) as [| d t] eqn:T.
  { simpl. intros [H | H]; discriminate H. }
  pose proof (trimStart_head _ _ _ T) as Wd.
  intros [H | H].
  - destruct (trimStart_split (rev (Js.trimStart s))) as [l [E F]].
    rewrite T in E.
    destruct (Js.trimStart s) as [| e u] eqn:U.
    { destruct l; discriminate E. }
    pose proof (trimStart_head _ _ _ U) as We.
    apply (f_equal (@rev N)) in E. rewrite rev_involutive in E.
    rewrite rev_app_distr in E.
    destruct (rev (d :: t)) as [| x xs] eqn:R.
    { apply (f_equal (@length N)) in R. rewrite length_rev in R.
      discriminate R. }
    simpl in H. injection H as ->. simpl in E. injection E as -> _.
    exact We.
  - simpl in H. rewrite last_snoc in H. injection H as ->. exact Wd.
Qed.

End Trim.

(** C7. [addCallerEntry] looks at the pending text trimmed of white space:
    when that is empty (the text is empty or all white space) the state,
    and with it the log, is unchanged; otherwise exactly one entry is
    appended, sent by the caller and holding the trimmed text, and the
    pending text is cleared. *)
Theorem addCallerEntry_logs_trimmed (env : Env) (s : State) :
  addCallerEntry env s
  = match Js.trim (callerEntry s) with
    | [] => s
    | _ :: _ =>
        {| draftPlan := draftPlan s;
           activePlan := activePlan s;
           callStatus := callStatus s;
           consentToSummarize := consentToSummarize s;
           summaryNotes := summaryNotes s;
           callLog :=
             callLog s ++
               [ {| CallMessage.id := makeId env;
                    CallMessage.sender := Caller;
                    CallMessage.content := Js.trim (callerEntry s);
                    CallMessage.timestamp := Date_now env |} ];
           callerEntry := [];
           clarificationsUsed := clarificationsUsed s;
           recordingDisclosureMade := recordingDisclosureMade s;
           handoffReason := handoffReason s |}
    end
  /\ (Js.trim (callerEntry s) = []
      <-> Forall (fun c => Js.isWhiteSpace c = true) (callerEntry s)).
Proof.
  split; [| apply trim_nil_iff].
  unfold addCallerEntry. destruct (Js.trim (callerEntry s)); reflexivity.
Qed.

Example addCallerEntry_empty :
  addCallerEntry env1 (setCallerEntry (lit "") seeded_live)
  = setCallerEntry (lit "") seeded_live.
Proof. reflexivity. Qed.

Example addCallerEntry_blank :
  addCallerEntry env1 (setCallerEntry (lit "   ") seeded_live)
  = setCallerEntry (lit "   ") seeded_live.
Proof. reflexivity. Qed.

Example addCallerEntry_hello :
  let s' := addCallerEntry env1 (setCallerEntry (lit "  hello ") seeded_live) in
  callLog s'
  = callLog seeded_live ++
      [ {| CallMessage.id := lit "m-1"; CallMessage.sender := Caller;
           CallMessage.content := lit "hello";
           CallMessage.timestamp := 1001 |} ]
  /\ callerEntry s' = [].
Proof. split; reflexivity. Qed.

(* ===================================================================== *)
(** ** Editing one talking point of the draft *)
(* ===================================================================== *)

Section UpdateAt.

Context {A : Type} (g : A -> A).

(** The callback of [map((x, idx) => idx === index ? g(x) : x)]. *)
Let at_index (index : Z) (idx : nat) (x : A) : A :=
  if decide (Z.of_nat idx = index) then g x else x.

Lemma imap_at_lookup (index : Z) (l : list A) (i : nat) :
  imap (at_index index) l !! i
  = if decide (Z.of_nat i = index) then g <$> l !! i else l !! i.
Proof.
  rewrite list_lookup_imap. unfold at_index.
  destruct (decide (Z.of_nat i = index)); [reflexivity |].
  destruct (l !! i); reflexivity.
Qed.

Lemma imap_at_out_of_range (index : Z) (l : list A) :
  (index < 0 \/ Z.of_nat (length l) <= index)%Z ->
  imap (at_index index) l = l.
Proof.
  intros Hout. apply list_eq. intros i. rewrite imap_at_lookup.
  destruct (decide (Z.of_nat i = index)) as [E |]; [| reflexivity].
  destruct (l !! i) eqn:L; [| reflexivity].
  apply lookup_lt_Some in L. lia.
Qed.

Lemma imap_at_in_range (l : list A) (n : nat) :
  imap (at_index (Z.of_nat n)) l = alter g n l.
Proof.
  apply list_eq. intros i. rewrite imap_at_lookup.
  destruct (decide (Z.of_nat i = Z.of_nat n)) as [E | E].
  - apply Nat2Z.inj in E. subst i. symmetry. apply list_lookup_alter_eq.
  - symmetry. apply list_lookup_alter_ne. intros ->. apply E. reflexivity.
Qed.

End UpdateAt.

Lemma setDraftPlan_same (f : CallPlan -> CallPlan) (s : State) :
  f (draftPlan s) = draftPlan s -> setDraftPlan f s = s.
Proof. intros E. unfold setDraftPlan. rewrite E. destruct s; reflexivity. Qed.

Lemma with_talkingPoints_same (p : CallPlan) :
  with_talkingPoints (talkingPoints p) p = p.
Proof. destruct p; reflexivity. Qed.

(** C8. [handleTalkingPointChange] has no failing path. With an index
    below zero or at or beyond the number of talking points it returns the
    state it was given. With the index of a point it changes nothing but
    that point of the draft, where each field named in the partial record
    takes the given value and each field not named keeps its value; every
    other point, the number of points, the other fields of the draft and the
    rest of the state stay as they were. *)
Theorem handleTalkingPointChange_at_index
  (index : Z) (value : TalkingPoint.partial) (s : State) :
  let tps := talkingPoints (draftPlan s) in
  let s' := handleTalkingPointChange index value s in
  ((index < 0 \/ Z.of_nat (length tps) <= index)%Z -> s' = s)
  /\ s' = setDraftPlan (with_talkingPoints (talkingPoints (draftPlan s'))) s
  /\ length (talkingPoints (draftPlan s')) = length tps
  /\ (forall (n : nat) (point : TalkingPoint.t),
        index = Z.of_nat n -> tps !! n = Some point ->
        talkingPoints (draftPlan s') !! n
        = Some
            {| TalkingPoint.id :=
                 match TalkingPoint.id' value with
                 | Some v => v | None => TalkingPoint.id point
                 end;
               TalkingPoint.content :=
                 match TalkingPoint.content' value with
                 | Some v => v | None => TalkingPoint.content point
                 end;
               TalkingPoint.emphasis :=
                 match TalkingPoint.emphasis' value with
                 | Some v => v | None => TalkingPoint.emphasis point
                 end;
               TalkingPoint.delivered :=
                 match TalkingPoint.delivered' value with
                 | Some v => v | None => TalkingPoint.delivered point
                 end |})
  /\ (forall n : nat,
        index <> Z.of_nat n ->
        talkingPoints (draftPlan s') !! n = tps !! n).
Proof.
  cbv zeta. repeat split.
  - intros Hout. unfold handleTalkingPointChange.
    apply setDraftPlan_same.
    rewrite imap_at_out_of_range by exact Hout.
    apply with_talkingPoints_same.
  - simpl. apply length_imap.
  - intros n point -> L. simpl.
    rewrite (imap_at_lookup (fun p => TalkingPoint.merge p value)), L.
    rewrite decide_True by reflexivity. reflexivity.
  - intros n Hne. simpl.
    rewrite (imap_at_lookup (fun p => TalkingPoint.merge p value)).
    rewrite decide_False by congruence. reflexivity.
Qed.

(** The seeded draft: index 7 and index -1 change nothing; index 1 renames
    the second point only. *)
Example handleTalkingPointChange_examples :
  let value :=
    {| TalkingPoint.id' := None; TalkingPoint.content' := Some (lit "x");
       TalkingPoint.emphasis' := None; TalkingPoint.delivered' := None |} in
  handleTalkingPointChange 7 value seeded = seeded
  /\ handleTalkingPointChange (-1) value seeded = seeded
  /\ TalkingPoint.content <$>
       talkingPoints (draftPlan (handleTalkingPointChange 1 value seeded))
     = [ lit "Ask if they received Manohar's follow-up email summarizing the AI/ML role responsibilities.";
         lit "x";
         lit "Offer to share additional project highlights if they need more context before meeting." ].
Proof. repeat split. Qed.

(* ===================================================================== *)
(** ** Marking a talking point by hand *)
(* ===================================================================== *)

Lemma toggle_point_involutive (id : str) (point : TalkingPoint.t) :
  toggle_point id (toggle_point id point) = point.
Proof.
  unfold toggle_point. destruct point as [i c e d]. simpl.
  destruct (decide (i = id)) as [E | E]; simpl.
  - rewrite decide_True by exact E. unfold TalkingPoint.with_delivered.
    simpl. rewrite negb_involutive. reflexivity.
  - rewrite decide_False by exact E. reflexivity.
Qed.

Lemma toggle_twice (id : str) (s : State) :
  toggleTalkingPointDelivered id (toggleTalkingPointDelivered id s) = s.
Proof.
  destruct s as [draft [ph pu od tps cl hc an] st co su lg ce cu rd hr].
  unfold toggleTalkingPointDelivered, setActivePlan, with_talkingPoints.
  simpl. do 2 f_equal.
  rewrite <- list_fmap_compose.
  rewrite <- (list_fmap_id tps) at 2.
  apply list_fmap_ext. intros _ point _. apply toggle_point_involutive.
Qed.

(** C10. For every state and identifier, toggling twice gives the state
    back. One toggle changes nothing but the active plan's talking points:
    their number and positions are kept, a point with another identifier is
    kept as it is, and a point with the given identifier keeps its
    identifier, content and emphasis and has its [delivered] flag negated. *)
Theorem toggleTalkingPointDelivered_involution (id : str) (s : State) :
  let tps := talkingPoints (activePlan s) in
  let s' := toggleTalkingPointDelivered id s in
  toggleTalkingPointDelivered id s' = s
  /\ s' = setActivePlan (with_talkingPoints (talkingPoints (activePlan s'))) s
  /\ length (talkingPoints (activePlan s')) = length tps
  /\ (forall i : nat,
        talkingPoints (activePlan s') !! i
        = (fun point =>
             if decide (TalkingPoint.id point = id)
             then {| TalkingPoint.id := TalkingPoint.id point;
                     TalkingPoint.content := TalkingPoint.content point;
                     TalkingPoint.emphasis := TalkingPoint.emphasis point;
                     TalkingPoint.delivered :=
                       negb (TalkingPoint.delivered point) |}
             else point) <$> tps !! i).
Proof.
  cbv zeta. repeat split.
  - apply toggle_twice.
  - simpl. apply length_fmap.
  - intros i. simpl. apply list_lookup_fmap.
Qed.

(** On the seeded session: the second point is flipped, and flipped back. *)
Example toggle_second_point :
  TalkingPoint.delivered <$>
    talkingPoints (activePlan (toggleTalkingPointDelivered (lit "b") seeded))
  = [false; true; false]
  /\ toggleTalkingPointDelivered (lit "b")
       (toggleTalkingPointDelivered (lit "b") seeded) = seeded.
Proof. split; reflexivity. Qed.

(* ===================================================================== *)
(** ** The clarification budget *)
(* ===================================================================== *)

Lemma with_log_and_count_same (s : State) :
  with_log_and_count (callLog s) (clarificationsUsed s) s = s.
Proof. destruct s; reflexivity. Qed.

Lemma canUseClarification_lt (s : State) :
  canUseClarification s = true
  <-> clarificationsUsed s < length (clarifications (activePlan s)).
Proof. unfold canUseClarification. apply Nat.ltb_lt. Qed.

(** With budget left, one call appends the next clarification and counts
    it; the generic prompt is never needed. *)
Lemma useClarification_step (env : Env) (s : State) (text : str) :
  clarifications (activePlan s) !! clarificationsUsed s = Some text ->
  useClarification env s
  = with_log_and_count (callLog s ++ [clarification_message env text])
      (S (clarificationsUsed s)) s.
Proof.
  intros L. unfold useClarification.
  pose proof (lookup_lt_Some _ _ _ L) as Hlt.
  apply canUseClarification_lt in Hlt. rewrite Hlt, L. simpl.
  unfold with_log_and_count, setClarificationsUsed, pushLogEntry, setCallLog.
  simpl. rewrite Nat.add_1_r. reflexivity.
Qed.

(** With the budget used up, a call does nothing. *)
Lemma useClarification_exhausted (env : Env) (s : State) :
  length (clarifications (activePlan s)) <= clarificationsUsed s ->
  useClarification env s = s.
Proof.
  intros Hge. unfold useClarification.
  destruct (canUseClarification s) eqn:C; [| reflexivity].
  apply canUseClarification_lt in C. lia.
Qed.

(** [k] calls starting from a counter [u], with [u + k] within the list. *)
Lemma useClarification_repeatedly (envs : list Env) (s : State) :
  clarificationsUsed s + length envs
    <= length (clarifications (activePlan s)) ->
  repeatedly useClarification envs s
  = with_log_and_count
      (callLog s ++
         zip_with clarification_message envs
           (drop (clarificationsUsed s) (clarifications (activePlan s))))
      (clarificationsUsed s + length envs) s.
Proof.
  unfold repeatedly. revert s.
  induction envs as [| env envs IH]; intros s Hle; simpl in *.
  - rewrite app_nil_r, Nat.add_0_r. symmetry. apply with_log_and_count_same.
  - destruct (clarifications (activePlan s) !! clarificationsUsed s)
      as [text |] eqn:L.
    2: { apply lookup_ge_None in L. lia. }
    rewrite (useClarification_step env s text L).
    rewrite IH by (simpl; lia). simpl.
    rewrite (drop_S _ _ _ L). simpl.
    unfold with_log_and_count. simpl.
    rewrite <- app_assoc. simpl. f_equal. lia.
Qed.

Lemma respondWithNextPoint_budget (env : Env) (s : State) :
  within_budget s -> within_budget (respondWithNextPoint env s).
Proof.
  unfold respondWithNextPoint. destruct (nextTalkingPoint s); trivial.
Qed.

Lemma addCallerEntry_budget (env : Env) (s : State) :
  within_budget s -> within_budget (addCallerEntry env s).
Proof.
  unfold addCallerEntry.
  destruct (negb (Js.truthy (Js.trim (callerEntry s)))); trivial.
Qed.

Lemma useClarification_budget (env : Env) (s : State) :
  within_budget s -> within_budget (useClarification env s).
Proof.
  intros Hs. unfold useClarification.
  destruct (canUseClarification s) eqn:C; simpl; [| exact Hs].
  apply canUseClarification_lt in C. unfold within_budget. simpl. lia.
Qed.

(** Every handler keeps the counter within the budget. *)
Lemma handle_budget (env : Env) (a : Action) (s : State) :
  within_budget s -> within_budget (handle env a s).
Proof.
  intros Hs. destruct a; simpl;
    auto using respondWithNextPoint_budget, addCallerEntry_budget,
      useClarification_budget.
  unfold within_budget. simpl. lia.
Qed.

Lemma run_budget (calls : list (Env * Action)) (s : State) :
  within_budget s -> within_budget (run calls s).
Proof.
  unfold run. revert s.
  induction calls as [| [env a] calls IH]; intros s Hs; [exact Hs |].
  simpl. apply IH, handle_budget, Hs.
Qed.

(** The first render is within the budget, and so is every state the
    handlers can build from it. *)
Lemma reachable_within_budget (id1 id2 id3 : str)
  (calls : list (Env * Action)) :
  within_budget (run calls (initialState id1 id2 id3)).
Proof. apply run_budget. unfold within_budget. simpl. lia. Qed.

(** C5. On a session whose counter is 0, [k] calls of [useClarification]
    with [k] at most the number [L] of clarifications append the first [k]
    clarifications, in list order, as NovaCall entries (the [j]-th call the
    [j]-th string) and leave the counter at [k], changing nothing else; when
    [k = L] a further call does nothing; and whatever handlers are called
    afterwards, the counter never exceeds the length of the active plan's
    list of clarifications. *)
Theorem useClarification_consumes_in_order
  (envs : list Env) (env : Env) (s : State) :
  clarificationsUsed s = 0 ->
  length envs <= length (clarifications (activePlan s)) ->
  let s' := repeatedly useClarification envs s in
  s' = {| draftPlan := draftPlan s;
          activePlan := activePlan s;
          callStatus := callStatus s;
          consentToSummarize := consentToSummarize s;
          summaryNotes := summaryNotes s;
          callLog :=
            callLog s ++
              zip_with
                (fun e text =>
                   {| CallMessage.id := makeId e;
                      CallMessage.sender := NovaCall;
                      CallMessage.content := text;
                      CallMessage.timestamp := Date_now e |})
                envs (clarifications (activePlan s));
          callerEntry := callerEntry s;
          clarificationsUsed := length envs;
          recordingDisclosureMade := recordingDisclosureMade s;
          handoffReason := handoffReason s |}
  /\ (length envs = length (clarifications (activePlan s)) ->
      useClarification env s' = s')
  /\ (forall calls : list (Env * Action),
        clarificationsUsed (run calls s')
        <= length (clarifications (activePlan (run calls s')))).
Proof.
  intros H0 Hle s'.
  assert (E : s' = with_log_and_count
                     (callLog s ++
                        zip_with clarification_message envs
                          (clarifications (activePlan s)))
                     (length envs) s).
  { unfold s'. rewrite useClarification_repeatedly by lia.
    rewrite H0. reflexivity. }
  split; [exact E |]. split.
  - intros Hall. apply useClarification_exhausted. rewrite E. simpl. lia.
  - intros calls. apply run_budget. rewrite E. unfold within_budget. simpl.
    exact Hle.
Qed.

Lemma useClarification_consumes_in_order_witness :
  clarificationsUsed seeded_live = 0
  /\ length [env1; env2] <= length (clarifications (activePlan seeded_live))
  /\ CallMessage.content <$>
       callLog (repeatedly useClarification [env1; env2] seeded_live)
     = (CallMessage.content <$> callLog seeded_live)
         ++ clarifications (activePlan seeded_live)
  /\ clarificationsUsed (repeatedly useClarification [env1; env2] seeded_live)
     = 2
  /\ useClarification env3
       (repeatedly useClarification [env1; env2] seeded_live)
     = repeatedly useClarification [env1; env2] seeded_live.
Proof.
  split; [reflexivity |]. split; [simpl; lia |].
  destruct (useClarification_consumes_in_order [env1; env2] env3 seeded_live)
    as [E [Hstop _]]; [reflexivity | simpl; lia |].
  split; [rewrite E; reflexivity |].
  split; [rewrite E; reflexivity | apply Hstop; reflexivity].
Defined.

(* ===================================================================== *)
(** ** Responding with the next talking point *)
(* ===================================================================== *)

Section NextPoint.

Let pending (point : TalkingPoint.t) : Prop :=
  TalkingPoint.delivered point = false.
Let done (point : TalkingPoint.t) : Prop :=
  TalkingPoint.delivered point = true.
Let undelivered (point : TalkingPoint.t) : bool :=
  negb (TalkingPoint.delivered point).

Lemma find_skips_delivered (before rest : list TalkingPoint.t) :
  Forall done before ->
  List.find undelivered (before ++ rest) = List.find undelivered rest.
Proof.
  induction 1 as [| point before D _ IH]; [reflexivity |].
  simpl. unfold undelivered at 1. unfold done in D. rewrite D. exact IH.
Qed.

Lemma find_none_when_all_delivered (tps : list TalkingPoint.t) :
  Forall done tps -> List.find undelivered tps = None.
Proof.
  intros D. rewrite <- (app_nil_r tps). rewrite find_skips_delivered by exact D.
  reflexivity.
Qed.

Lemma toggle_other_ids (id : str) (tps : list TalkingPoint.t) :
  id ∉ (TalkingPoint.id <$> tps) -> toggle_point id <$> tps = tps.
Proof.
  induction tps as [| point tps IH]; [reflexivity |].
  rewrite fmap_cons, not_elem_of_cons. intros [Hne Hnotin].
  rewrite fmap_cons, IH by exact Hnotin. f_equal.
  unfold toggle_point. rewrite decide_False by congruence. reflexivity.
Qed.

(** With distinct identifiers, toggling the identifier of the first pending
    point changes that point only. *)
Lemma toggle_first_pending (before rest : list TalkingPoint.t)
  (point : TalkingPoint.t) :
  NoDup (TalkingPoint.id <$> (before ++ point :: rest)) ->
  pending point ->
  toggle_point (TalkingPoint.id point) <$> (before ++ point :: rest)
  = before ++ TalkingPoint.with_delivered true point :: rest.
Proof.
  intros Hnd Hp. rewrite fmap_app, fmap_cons in Hnd.
  apply NoDup_app in Hnd as [_ [Hdisj Hnd]].
  apply NoDup_cons in Hnd as [Hrest _].
  rewrite fmap_app, fmap_cons.
  rewrite (toggle_other_ids _ rest) by exact Hrest.
  rewrite (toggle_other_ids _ before).
  2: { intros Hin. apply (Hdisj _ Hin). left. }
  f_equal. f_equal. unfold toggle_point.
  rewrite decide_True by reflexivity. unfold pending in Hp. rewrite Hp.
  reflexivity.
Qed.

(** One call on a plan whose delivered points come first. *)
Lemma respondWithNextPoint_step (env : Env) (s : State)
  (before rest : list TalkingPoint.t) (point : TalkingPoint.t) :
  talkingPoints (activePlan s) = before ++ point :: rest ->
  Forall done before -> pending point ->
  NoDup (TalkingPoint.id <$> talkingPoints (activePlan s)) ->
  respondWithNextPoint env s
  = with_points_and_log
      (before ++ TalkingPoint.with_delivered true point :: rest)
      (callLog s ++ [point_message env point]) s.
Proof.
  intros E D Hp Hnd. unfold respondWithNextPoint, nextTalkingPoint.
  rewrite E in Hnd |- *. fold undelivered.
  rewrite find_skips_delivered by exact D. simpl.
  unfold undelivered at 1. unfold pending in Hp. rewrite Hp. simpl.
  unfold toggleTalkingPointDelivered, pushLogEntry, setCallLog,
    setActivePlan, with_points_and_log. simpl.
  rewrite E, toggle_first_pending by assumption. reflexivity.
Qed.

(** A call on a plan with every point delivered does nothing. *)
Lemma respondWithNextPoint_all_delivered (env : Env) (s : State) :
  Forall done (talkingPoints (activePlan s)) ->
  respondWithNextPoint env s = s.
Proof.
  intros D. unfold respondWithNextPoint, nextTalkingPoint. fold undelivered.
  rewrite find_none_when_all_delivered by exact D. reflexivity.
Qed.

Lemma delivered_prefix_done (tps : list TalkingPoint.t) :
  Forall done (TalkingPoint.with_delivered true <$> tps).
Proof. apply Forall_fmap, Forall_forall. intros point _. reflexivity. Qed.

(** [k] calls on a plan whose first [length before] points are delivered
    and whose other points are pending. *)
Lemma respondWithNextPoint_repeatedly (envs : list Env) (s : State)
  (before rest : list TalkingPoint.t) :
  talkingPoints (activePlan s) = before ++ rest ->
  Forall done before -> Forall pending rest ->
  NoDup (TalkingPoint.id <$> (before ++ rest)) ->
  length envs <= length rest ->
  repeatedly respondWithNextPoint envs s
  = with_points_and_log
      (before ++ (TalkingPoint.with_delivered true <$> take (length envs) rest)
         ++ drop (length envs) rest)
      (callLog s ++ zip_with point_message envs rest) s.
Proof.
  unfold repeatedly. revert s before rest.
  induction envs as [| env envs IH]; intros s before rest E D P Hnd Hle.
  - simpl. rewrite app_nil_r, drop_0, <- E.
    destruct s as [? [] ? ? ? ? ? ? ? ?]; reflexivity.
  - destruct rest as [| point rest]; [simpl in Hle; lia |].
    apply Forall_cons in P as [Hp P]. simpl.
    rewrite (respondWithNextPoint_step env s before rest point E D Hp)
      by (rewrite E; exact Hnd).
    rewrite (IH _ (before ++ [TalkingPoint.with_delivered true point]) rest).
    + unfold with_points_and_log, with_talkingPoints. simpl.
      rewrite <- !app_assoc. reflexivity.
    + simpl. rewrite <- app_assoc. reflexivity.
    + apply Forall_app. split; [exact D |]. repeat constructor.
    + exact P.
    + rewrite <- app_assoc. simpl.
      rewrite fmap_app, fmap_cons in Hnd |- *. exact Hnd.
    + simpl in Hle. lia.
Qed.

End NextPoint.

Lemma delivered_prefix_lookup (tps : list TalkingPoint.t) (k i : nat)
  (point : TalkingPoint.t) :
  k <= length tps ->
  tps !! i = Some point ->
  ((TalkingPoint.with_delivered true <$> take k tps) ++ drop k tps) !! i
  = Some (if decide (i < k)
          then TalkingPoint.with_delivered true point else point).
Proof.
  intros Hk L. destruct (decide (i < k)) as [Hlt | Hge].
  - rewrite lookup_app_l by (rewrite length_fmap, length_take; lia).
    rewrite list_lookup_fmap, lookup_take_lt, L by exact Hlt. reflexivity.
  - rewrite lookup_app_r by (rewrite length_fmap, length_take; lia).
    rewrite length_fmap, length_take, lookup_drop.
    rewrite <- L. f_equal. lia.
Qed.

(** C4. Take an active plan whose [N] talking points are all pending and
    carry distinct identifiers (the data model's unique identifier, which
    holds on every state of the page: [reachable_distinct_ids]). After
    [k] calls of [respondWithNextPoint], [k] at most [N], exactly the first
    [k] points are marked delivered, every point otherwise as it was and in
    its place, and the log has grown by [k] NovaCall entries holding the
    contents of the first [k] points in plan order; nothing else changed.
    So the [j]-th call delivers the [j]-th point and logs its content. After
    [N] calls a further call does nothing. *)
Theorem respondWithNextPoint_delivers_in_order
  (envs : list Env) (env : Env) (s : State) :
  Forall (fun point => TalkingPoint.delivered point = false)
    (talkingPoints (activePlan s)) ->
  NoDup (TalkingPoint.id <$> talkingPoints (activePlan s)) ->
  length envs <= length (talkingPoints (activePlan s)) ->
  let tps := talkingPoints (activePlan s) in
  let k := length envs in
  let s' := repeatedly respondWithNextPoint envs s in
  s' = {| draftPlan := draftPlan s;
          activePlan :=
            with_talkingPoints
              ((TalkingPoint.with_delivered true <$> take k tps)
                 ++ drop k tps)
              (activePlan s);
          callStatus := callStatus s;
          consentToSummarize := consentToSummarize s;
          summaryNotes := summaryNotes s;
          callLog :=
            callLog s ++
              zip_with
                (fun e point =>
                   {| CallMessage.id := makeId e;
                      CallMessage.sender := NovaCall;
                      CallMessage.content := TalkingPoint.content point;
                      CallMessage.timestamp := Date_now e |})
                envs tps;
          callerEntry := callerEntry s;
          clarificationsUsed := clarificationsUsed s;
          recordingDisclosureMade := recordingDisclosureMade s;
          handoffReason := handoffReason s |}
  /\ (forall (i : nat) (point : TalkingPoint.t),
        tps !! i = Some point ->
        talkingPoints (activePlan s') !! i
        = Some {| TalkingPoint.id := TalkingPoint.id point;
                  TalkingPoint.content := TalkingPoint.content point;
                  TalkingPoint.emphasis := TalkingPoint.emphasis point;
                  TalkingPoint.delivered := bool_decide (i < k) |})
  /\ (k = length tps -> respondWithNextPoint env s' = s').
Proof.
  intros P Hnd Hle tps k s'.
  assert (E : s' = with_points_and_log
                     ((TalkingPoint.with_delivered true <$> take k tps)
                        ++ drop k tps)
                     (callLog s ++ zip_with point_message envs tps) s).
  { unfold s'.
    rewrite (respondWithNextPoint_repeatedly envs s [] tps);
      try assumption; try reflexivity. constructor. }
  split; [exact E |]. split.
  - intros i point L. rewrite E. simpl.
    rewrite (delivered_prefix_lookup tps k i point Hle L).
    pose proof (proj1 (Forall_lookup _ _) P i point L) as Hp. simpl in Hp.
    destruct point as [pid pc pe pd]. simpl in Hp. subst pd.
    destruct (decide (i < k)) as [Hlt | Hge].
    + rewrite bool_decide_eq_true_2 by exact Hlt. reflexivity.
    + rewrite bool_decide_eq_false_2 by exact Hge. reflexivity.
  - intros Hk. apply respondWithNextPoint_all_delivered.
    rewrite E. simpl. rewrite Hk. fold tps.
    rewrite firstn_all, drop_all, app_nil_r.
    apply delivered_prefix_done.
Qed.

Lemma respondWithNextPoint_delivers_in_order_witness :
  Forall (fun point => TalkingPoint.delivered point = false)
    (talkingPoints (activePlan seeded_live))
  /\ NoDup (TalkingPoint.id <$> talkingPoints (activePlan seeded_live))
  /\ length [env1; env2; env3]
     <= length (talkingPoints (activePlan seeded_live))
  /\ TalkingPoint.delivered <$>
       talkingPoints
         (activePlan
            (repeatedly respondWithNextPoint [env1; env2; env3] seeded_live))
     = [true; true; true]
  /\ length
       (callLog
          (repeatedly respondWithNextPoint [env1; env2; env3] seeded_live))
     = 4
  /\ respondWithNextPoint env0
       (repeatedly respondWithNextPoint [env1; env2; env3] seeded_live)
     = repeatedly respondWithNextPoint [env1; env2; env3] seeded_live.
Proof.
  assert (P : Forall (fun point => TalkingPoint.delivered point = false)
                (talkingPoints (activePlan seeded_live))).
  { repeat constructor. }
  assert (Hnd : NoDup (TalkingPoint.id <$>
                         talkingPoints (activePlan seeded_live))).
  { simpl. repeat apply NoDup_cons_2; try apply NoDup_nil_2;
      rewrite ?not_elem_of_cons; repeat split;
      try apply not_elem_of_nil; discriminate. }
  split; [exact P |]. split; [exact Hnd |]. split; [simpl; lia |].
  destruct (respondWithNextPoint_delivers_in_order [env1; env2; env3] env0
              seeded_live P Hnd) as [E [_ Hstop]]; [simpl; lia |].
  split; [rewrite E; reflexivity |].
  split; [rewrite E; reflexivity | apply Hstop; reflexivity].
Defined.

(** The scenario of the seeded plan: the call is started, then four
    responses are asked for. The log holds the opening and the three points,
    all three points are delivered, and the fourth response changed
    nothing. *)
Example seeded_scenario :
  let s3 := repeatedly respondWithNextPoint [env1; env2; env3] seeded_live in
  let s4 := respondWithNextPoint env0 s3 in
  length (callLog s4) = 4
  /\ completedTalkingPoints s4 = 3
  /\ s4 = s3.
Proof. vm_compute. repeat split. Qed.

(** Two points sharing one identifier are both flipped by the one call that
    delivers the first of them: distinct identifiers are needed for the
    point-by-point delivery above. *)
Example shared_identifier_delivers_both :
  let twin (text : string) :=
    {| TalkingPoint.id := lit "same"; TalkingPoint.content := lit text;
       TalkingPoint.emphasis := low; TalkingPoint.delivered := false |} in
  let s :=
    setActivePlan (with_talkingPoints [twin "one"%string; twin "two"%string]) seeded in
  TalkingPoint.delivered <$>
    talkingPoints (activePlan (respondWithNextPoint env1 s))
  = [true; true].
Proof. reflexivity. Qed.

(* ===================================================================== *)
(** ** Adding and removing talking points of the draft *)
(* ===================================================================== *)

Lemma setDraftPlan_twice (f g : CallPlan -> CallPlan) (s : State) :
  setDraftPlan g (setDraftPlan f s) = setDraftPlan (fun p => g (f p)) s.
Proof. reflexivity. Qed.

Lemma addTalkingPoint_points (env : Env) (s : State) :
  talkingPoints (draftPlan (addTalkingPoint env s))
  = talkingPoints (draftPlan s) ++ [newTalkingPoint env].
Proof. reflexivity. Qed.

Lemma removeTalkingPoint_points (id : str) (s : State) :
  talkingPoints (draftPlan (removeTalkingPoint id s))
  = filter (fun point => TalkingPoint.id point <> id)
      (talkingPoints (draftPlan s)).
Proof. reflexivity. Qed.

Lemma removeTalkingPoint_sublist (id : str) (s : State) :
  talkingPoints (draftPlan (removeTalkingPoint id s))
    `sublist_of` talkingPoints (draftPlan s).
Proof. rewrite removeTalkingPoint_points. apply sublist_filter. Qed.

Lemma filter_other_ids (id : str) (tps : list TalkingPoint.t) :
  id ∉ (TalkingPoint.id <$> tps) ->
  filter (fun point => TalkingPoint.id point <> id) tps = tps.
Proof.
  induction tps as [| point tps IH]; [reflexivity |].
  rewrite fmap_cons, not_elem_of_cons. intros [Hne Hnotin].
  rewrite filter_cons_True by congruence. rewrite IH by exact Hnotin.
  reflexivity.
Qed.

Lemma removeTalkingPoint_unknown (id : str) (s : State) :
  id ∉ ids (draftPlan s) -> removeTalkingPoint id s = s.
Proof.
  intros Hnotin. unfold removeTalkingPoint. apply setDraftPlan_same.
  rewrite filter_other_ids by exact Hnotin. apply with_talkingPoints_same.
Qed.

(** With distinct identifiers, removing a listed identifier removes one
    point. *)
Lemma filter_known_id (id : str) (tps : list TalkingPoint.t) :
  NoDup (TalkingPoint.id <$> tps) ->
  id ∈ (TalkingPoint.id <$> tps) ->
  S (length (filter (fun point => TalkingPoint.id point <> id) tps))
  = length tps.
Proof.
  induction tps as [| point tps IH]; intros Hnd Hin.
  - apply elem_of_nil in Hin. contradiction.
  - rewrite fmap_cons in Hnd, Hin. apply NoDup_cons in Hnd as [Hhead Hnd].
    destruct (decide (TalkingPoint.id point = id)) as [E | E].
    + subst id. rewrite filter_cons_False by (intros H; apply H; reflexivity).
      rewrite filter_other_ids by exact Hhead. reflexivity.
    + rewrite filter_cons_True by exact E. simpl. f_equal.
      apply IH; [exact Hnd |].
      apply elem_of_cons in Hin as [Hin | Hin]; [congruence | exact Hin].
Qed.

(** A sequence of additions and removals changes the draft's talking points
    and nothing else. *)
Lemma add_remove_only_points (calls : list (Env * Action)) (s : State) :
  Forall (fun ea => is_add_or_remove (snd ea)) calls ->
  run calls s
  = setDraftPlan
      (with_talkingPoints (talkingPoints (draftPlan (run calls s)))) s.
Proof.
  unfold run. revert s.
  induction calls as [| [env a] calls IH]; intros s Hall.
  - simpl. symmetry. apply setDraftPlan_same, with_talkingPoints_same.
  - apply Forall_cons in Hall as [Ha Hall]. simpl in *.
    rewrite IH at 1 by exact Hall.
    destruct a; try contradiction; reflexivity.
Qed.

(** What is left after a sequence of additions and removals is a
    subsequence of the points it started with followed by the points it
    created. *)
Lemma add_remove_sublist (calls : list (Env * Action)) (s : State) :
  Forall (fun ea => is_add_or_remove (snd ea)) calls ->
  talkingPoints (draftPlan (run calls s))
    `sublist_of` talkingPoints (draftPlan s) ++ created calls.
Proof.
  unfold run. revert s.
  induction calls as [| [env a] calls IH]; intros s Hall.
  - simpl. rewrite app_nil_r. reflexivity.
  - apply Forall_cons in Hall as [Ha Hall]. simpl in Ha |- *.
    specialize (IH (handle env a s) Hall).
    destruct a; try contradiction; simpl in IH |- *.
    + rewrite <- app_assoc in IH. exact IH.
    + etransitivity; [exact IH |].
      apply sublist_app; [apply sublist_filter | reflexivity].
Qed.

Lemma addTalkingPoint_fresh (env : Env) (s : State) :
  NoDup (ids (draftPlan s)) -> makeId env ∉ ids (draftPlan s) ->
  NoDup (ids (draftPlan (addTalkingPoint env s))).
Proof.
  intros Hnd Hfresh. unfold ids. rewrite addTalkingPoint_points, fmap_app.
  apply NoDup_app. split; [exact Hnd |]. split.
  - intros x Hx Hin. apply list_elem_of_singleton in Hin. subst x.
    exact (Hfresh Hx).
  - apply NoDup_singleton.
Qed.

(** C6. Through any sequence of [addTalkingPoint] and [removeTalkingPoint]
    calls, the draft's talking points are a subsequence of the points the
    draft started with followed by the points created on the way, each as it
    was created: a remaining point keeps its identifier and its order
    relative to every other remaining point; nothing but the draft's talking
    points changes. [addTalkingPoint] appends one point with the identifier
    [makeId()] returned, empty content, low emphasis and [delivered] false,
    and keeps identifiers distinct when that identifier is fresh.
    [removeTalkingPoint(id)] keeps exactly the points with another
    identifier, in order; it changes nothing when no point has the
    identifier, and removes one point when identifiers are distinct and one
    has it. *)
Theorem add_remove_keep_identity_and_order
  (calls : list (Env * Action)) (env : Env) (id : str) (s : State) :
  Forall (fun ea => is_add_or_remove (snd ea)) calls ->
  let tps := talkingPoints (draftPlan s) in
  (talkingPoints (draftPlan (run calls s)) `sublist_of` tps ++ created calls
   /\ run calls s
      = setDraftPlan
          (with_talkingPoints (talkingPoints (draftPlan (run calls s)))) s)
  /\ (talkingPoints (draftPlan (addTalkingPoint env s))
      = tps ++ [ {| TalkingPoint.id := makeId env;
                    TalkingPoint.content := [];
                    TalkingPoint.emphasis := low;
                    TalkingPoint.delivered := false |} ]
      /\ (NoDup (TalkingPoint.id <$> tps) ->
          makeId env ∉ (TalkingPoint.id <$> tps) ->
          NoDup (TalkingPoint.id <$>
                   talkingPoints (draftPlan (addTalkingPoint env s)))))
  /\ (talkingPoints (draftPlan (removeTalkingPoint id s)) `sublist_of` tps
      /\ (forall point : TalkingPoint.t,
            point ∈ talkingPoints (draftPlan (removeTalkingPoint id s))
            <-> point ∈ tps /\ TalkingPoint.id point <> id)
      /\ (id ∉ (TalkingPoint.id <$> tps) -> removeTalkingPoint id s = s)
      /\ (NoDup (TalkingPoint.id <$> tps) ->
          id ∈ (TalkingPoint.id <$> tps) ->
          S (length (talkingPoints (draftPlan (removeTalkingPoint id s))))
          = length tps)).
Proof.
  intros Hall tps. split; [| split].
  - split; [apply add_remove_sublist | apply add_remove_only_points];
      exact Hall.
  - split; [reflexivity | apply addTalkingPoint_fresh].
  - split; [apply removeTalkingPoint_sublist |].
    split; [| split].
    + intros point. rewrite removeTalkingPoint_points, list_elem_of_filter.
      tauto.
    + apply removeTalkingPoint_unknown.
    + apply filter_known_id.
Qed.

Lemma add_remove_keep_identity_and_order_witness :
  Forall (fun ea => is_add_or_remove (snd ea)) edit_session
  /\ talkingPoints (draftPlan (run edit_session seeded))
       `sublist_of` talkingPoints (draftPlan seeded) ++ created edit_session
  /\ ids (draftPlan (run edit_session seeded))
     = [lit "a"; lit "c"; lit "m-2"].
Proof.
  assert (Hall : Forall (fun ea => is_add_or_remove (snd ea)) edit_session).
  { repeat constructor. }
  split; [exact Hall |].
  split; [| reflexivity].
  apply (add_remove_keep_identity_and_order edit_session env0 [] seeded Hall).
Defined.

(* ===================================================================== *)
(** ** Identifiers stay distinct on the page *)
(* ===================================================================== *)

Lemma ids_fmap_same (f : TalkingPoint.t -> TalkingPoint.t)
  (tps : list TalkingPoint.t) :
  (forall point, TalkingPoint.id (f point) = TalkingPoint.id point) ->
  TalkingPoint.id <$> (f <$> tps) = TalkingPoint.id <$> tps.
Proof.
  intros Hf. rewrite <- list_fmap_compose. apply list_fmap_ext.
  intros _ point _. apply Hf.
Qed.

Lemma ids_imap_same (f : nat -> TalkingPoint.t -> TalkingPoint.t)
  (tps : list TalkingPoint.t) :
  (forall i point, TalkingPoint.id (f i point) = TalkingPoint.id point) ->
  TalkingPoint.id <$> imap f tps = TalkingPoint.id <$> tps.
Proof.
  intros Hf. apply list_eq. intros i.
  rewrite !list_lookup_fmap, list_lookup_imap.
  destruct (tps !! i); simpl; [rewrite Hf |]; reflexivity.
Qed.

Lemma toggle_point_id (id : str) (point : TalkingPoint.t) :
  TalkingPoint.id (toggle_point id point) = TalkingPoint.id point.
Proof. unfold toggle_point. destruct (decide _); reflexivity. Qed.

Lemma toggle_ids (id : str) (s : State) :
  ids (activePlan (toggleTalkingPointDelivered id s)) = ids (activePlan s).
Proof. apply ids_fmap_same, toggle_point_id. Qed.

Lemma respondWithNextPoint_ids (env : Env) (s : State) :
  ids (activePlan (respondWithNextPoint env s)) = ids (activePlan s)
  /\ draftPlan (respondWithNextPoint env s) = draftPlan s.
Proof.
  unfold respondWithNextPoint.
  destruct (nextTalkingPoint s) as [point |]; [| split; reflexivity].
  split; [| reflexivity].
  apply (toggle_ids (TalkingPoint.id point) s).
Qed.

Lemma addCallerEntry_plans (env : Env) (s : State) :
  activePlan (addCallerEntry env s) = activePlan s
  /\ draftPlan (addCallerEntry env s) = draftPlan s.
Proof.
  unfold addCallerEntry.
  destruct (negb (Js.truthy (Js.trim (callerEntry s)))); split; reflexivity.
Qed.

Lemma useClarification_plans (env : Env) (s : State) :
  activePlan (useClarification env s) = activePlan s
  /\ draftPlan (useClarification env s) = draftPlan s.
Proof.
  unfold useClarification.
  destruct (negb (canUseClarification s)); split; reflexivity.
Qed.

Lemma handle_distinct_ids (env : Env) (a : Action) (s : State) :
  distinct_ids s -> rendered s env a -> distinct_ids (handle env a s).
Proof.
  intros [Hd Ha] Hr. unfold distinct_ids.
  destruct a; simpl in Hr; cbn [handle].
  - destruct kv; try contradiction; split; assumption.
  - split; [| exact Ha]. unfold ids. simpl.
    rewrite ids_imap_same; [exact Hd |].
    intros i point. destruct (decide _); [| reflexivity].
    simpl. rewrite Hr. reflexivity.
  - split; [| exact Ha]. apply addTalkingPoint_fresh; assumption.
  - split; [| exact Ha]. unfold ids.
    apply (sublist_NoDup _ (ids (draftPlan s))); [exact Hd |].
    apply fmap_sublist, removeTalkingPoint_sublist.
  - split; assumption.
  - split; assumption.
  - split; assumption.
  - split; [exact Hd |]. unfold ids. simpl.
    rewrite ids_fmap_same; [exact Hd | reflexivity].
  - split; [exact Hd |]. rewrite toggle_ids. exact Ha.
  - split; assumption.
  - destruct (respondWithNextPoint_ids env s) as [Ea Ed].
    rewrite Ea, Ed. split; assumption.
  - split; assumption.
  - destruct (addCallerEntry_plans env s) as [Ea Ed].
    rewrite Ea, Ed. split; assumption.
  - destruct (useClarification_plans env s) as [Ea Ed].
    rewrite Ea, Ed. split; assumption.
  - split; assumption.
  - split; assumption.
  - split; assumption.
  - split; assumption.
Qed.

(** X26. On every state of the page, the talking points of either plan
    carry distinct identifiers: starting from three distinct seeded
    identifiers, with [makeId()] answering an identifier not in the draft
    at each addition, no user event makes two points share one. *)
Lemma reachable_distinct_ids (s : State) : reachable s -> distinct_ids s.
Proof.
  induction 1 as [id1 id2 id3 Hnd | s env a _ IH Hr].
  - split; exact Hnd.
  - unfold dispatch. destruct (enabled s a); [| exact IH].
    apply handle_distinct_ids; assumption.
Qed.

(* ===================================================================== *)
(** ** The editor and the session keep to their own state *)
(* ===================================================================== *)

Lemma editor_handle_only_draft (env : Env) (a : Action) (s : State) :
  is_editor a = true ->
  handle env a s = setDraftPlan (fun _ => draftPlan (handle env a s)) s.
Proof. destruct a; try discriminate; reflexivity. Qed.

(** X1. Whatever editor handlers are called, in whatever order and with
    whatever arguments, only the draft plan changes: the active plan, the
    status, the log, the counters and every other cell of the session are
    those of the state the calls started from. *)
Theorem editor_changes_only_draft (calls : list (Env * Action)) (s : State) :
  Forall (fun ea => is_editor (snd ea) = true) calls ->
  run calls s = setDraftPlan (fun _ => draftPlan (run calls s)) s.
Proof.
  unfold run. revert s.
  induction calls as [| [env a] calls IH]; intros s Hall.
  - destruct s; reflexivity.
  - apply Forall_cons in Hall as [Ha Hall]. simpl in Ha |- *.
    rewrite (IH _ Hall) at 1.
    rewrite (editor_handle_only_draft env a s Ha) at 1. reflexivity.
Qed.

Lemma editor_changes_only_draft_witness :
  Forall (fun ea => is_editor (snd ea) = true) edit_session
  /\ activePlan (run edit_session seeded_live) = activePlan seeded_live
  /\ callLog (run edit_session seeded_live) = callLog seeded_live.
Proof.
  assert (Hall : Forall (fun ea => is_editor (snd ea) = true) edit_session).
  { repeat constructor. }
  split; [exact Hall |].
  rewrite (editor_changes_only_draft edit_session seeded_live Hall).
  split; reflexivity.
Defined.

Lemma session_handle_draft (env : Env) (a : Action) (s : State) :
  is_editor a = false -> draftPlan (handle env a s) = draftPlan s.
Proof.
  destruct a; try discriminate; intros _; try reflexivity.
  - apply respondWithNextPoint_ids.
  - apply addCallerEntry_plans.
  - apply useClarification_plans.
Qed.

(** X2. No handler of the call console writes the draft: after any sequence
    of session handler calls (load, start, respond, toggle, caller entry,
    clarification, handoff, consent, summary, recording disclosure) the
    draft plan is the one the sequence started with, whatever the editor's
    draft held and whatever the calls logged. *)
Theorem session_keeps_draft (calls : list (Env * Action)) (s : State) :
  Forall (fun ea => is_editor (snd ea) = false) calls ->
  draftPlan (run calls s) = draftPlan s.
Proof.
  unfold run. revert s.
  induction calls as [| [env a] calls IH]; intros s Hall; [reflexivity |].
  apply Forall_cons in Hall as [Ha Hall]. simpl in Ha |- *.
  rewrite (IH _ Hall). apply session_handle_draft, Ha.
Qed.

Lemma session_keeps_draft_witness :
  Forall (fun ea => is_editor (snd ea) = false) call_session
  /\ draftPlan (run call_session seeded) = draftPlan seeded.
Proof.
  assert (Hall : Forall (fun ea => is_editor (snd ea) = false) call_session).
  { repeat constructor. }
  split; [exact Hall |].
  apply (session_keeps_draft call_session seeded Hall).
Defined.

Lemma load_reads_only_draft (s1 s2 : State) :
  draftPlan s1 = draftPlan s2 -> loadDraftToActive s1 = loadDraftToActive s2.
Proof.
  destruct s1, s2. cbn [draftPlan]. intros <-. reflexivity.
Qed.

(** X3. Loading wipes whatever the session did: after any sequence of
    session handler calls, loading gives the very state that loading gave
    before them. In particular loading twice is loading once. *)
Theorem load_forgets_session (calls : list (Env * Action)) (s : State) :
  Forall (fun ea => is_editor (snd ea) = false) calls ->
  loadDraftToActive (run calls s) = loadDraftToActive s
  /\ loadDraftToActive (loadDraftToActive s) = loadDraftToActive s.
Proof.
  intros Hall. split; [| apply load_reads_only_draft; reflexivity].
  unfold run. revert s Hall.
  induction calls as [| [env a] calls IH]; intros s Hall; [reflexivity |].
  apply Forall_cons in Hall as [Ha Hall]. simpl in Ha |- *.
  rewrite (IH _ Hall). apply load_reads_only_draft, session_handle_draft, Ha.
Qed.

Lemma load_forgets_session_witness :
  Forall (fun ea => is_editor (snd ea) = false) call_session
  /\ loadDraftToActive (run call_session seeded) = loadDraftToActive seeded
  /\ loadDraftToActive (loadDraftToActive seeded) = loadDraftToActive seeded.
Proof.
  assert (Hall : Forall (fun ea => is_editor (snd ea) = false) call_session).
  { repeat constructor. }
  split; [exact Hall |].
  apply (load_forgets_session call_session seeded Hall).
Defined.

(* ===================================================================== *)
(** ** The log only grows *)
(* ===================================================================== *)

(** What one handler call appends to the log: nothing, or one entry that
    carries the identifier and the time the environment answered. *)
Lemma handle_appends_message (env : Env) (a : Action) (s : State) :
  a <> LoadDraftToActive ->
  callLog (handle env a s) = callLog s
  \/ exists entry, callLog (handle env a s) = callLog s ++ [message env entry].
Proof.
  intros Hne.
  destruct a; cbn [handle]; try (left; reflexivity).
  - contradiction Hne; reflexivity.
  - right. eexists. reflexivity.
  - unfold respondWithNextPoint.
    destruct (nextTalkingPoint s); [right; eexists |left]; reflexivity.
  - unfold addCallerEntry.
    destruct (negb (Js.truthy (Js.trim (callerEntry s))));
      [left | right; eexists]; reflexivity.
  - unfold useClarification.
    destruct (negb (canUseClarification s));
      [left | right; eexists]; reflexivity.
  - right. eexists. reflexivity.
Qed.

Lemma handle_appends (env : Env) (a : Action) (s : State) :
  a <> LoadDraftToActive ->
  exists added, callLog (handle env a s) = callLog s ++ added
                /\ length added <= 1.
Proof.
  intros Hne.
  destruct (handle_appends_message env a s Hne) as [E | [entry E]].
  - exists []. rewrite app_nil_r. split; [exact E | simpl; lia].
  - exists [message env entry]. split; [exact E | simpl; lia].
Qed.

(** X4. The log is append-only between two loads: through any sequence of
    handler calls that does not load the plan, the log the sequence started
    with is a prefix of the log it ends with, and each call added at most
    one entry. No handler edits or removes an entry; only the load empties
    the log. *)
Theorem log_append_only (calls : list (Env * Action)) (s : State) :
  Forall (fun ea => snd ea <> LoadDraftToActive) calls ->
  callLog s `prefix_of` callLog (run calls s)
  /\ length (callLog (run calls s)) <= length (callLog s) + length calls.
Proof.
  unfold run. revert s.
  induction calls as [| [env a] calls IH]; intros s Hall.
  - simpl. split; [reflexivity | lia].
  - apply Forall_cons in Hall as [Ha Hall]. simpl in Ha |- *.
    destruct (IH (handle env a s) Hall) as [Hpre Hlen].
    destruct (handle_appends env a s Ha) as [added [E Hadded]].
    rewrite E in Hpre, Hlen. rewrite length_app in Hlen. split.
    + etransitivity; [| exact Hpre]. apply prefix_app_r. reflexivity.
    + lia.
Qed.

Lemma log_append_only_witness :
  Forall (fun ea => snd ea <> LoadDraftToActive) call_session
  /\ callLog seeded_live `prefix_of` callLog (run call_session seeded_live)
  /\ length (callLog (run call_session seeded_live))
     <= length (callLog seeded_live) + length call_session.
Proof.
  assert (Hall : Forall (fun ea => snd ea <> LoadDraftToActive) call_session).
  { repeat constructor; discriminate. }
  split; [exact Hall |].
  apply (log_append_only call_session seeded_live Hall).
Defined.

(* ===================================================================== *)
(** ** What the log holds *)
(* ===================================================================== *)

Lemma trim_idempotent (text : str) : Js.trim (Js.trim text) = Js.trim text.
Proof.
  destruct (Js.trim text) as [| c rest] eqn:T; [reflexivity |].
  assert (Hhead : Js.isWhiteSpace c = false).
  { apply (trim_ends text). left. rewrite T. reflexivity. }
  assert (Hne : c :: rest <> []) by discriminate.
  apply last_is_Some in Hne as [d Hd].
  assert (Hlast : Js.isWhiteSpace d = false).
  { apply (trim_ends text). right. rewrite T. exact Hd. }
  apply last_Some in Hd as [front Hfront].
  unfold Js.trim, Js.trimEnd.
  rewrite (trimStart_keeps c rest Hhead), Hfront, rev_app_distr. simpl.
  rewrite Hlast. simpl. rewrite rev_involutive. reflexivity.
Qed.

Lemma caller_entries_trimmed_snoc (log : list CallMessage.t)
  (m : CallMessage.t) :
  caller_entries_trimmed log ->
  (CallMessage.sender m = Caller ->
   CallMessage.content m <> []
   /\ Js.trim (CallMessage.content m) = CallMessage.content m) ->
  caller_entries_trimmed (log ++ [m]).
Proof.
  intros Hlog Hm. apply Forall_app. split; [exact Hlog |].
  constructor; [exact Hm | constructor].
Qed.

Lemma handle_caller_entries (env : Env) (a : Action) (s : State) :
  caller_entries_trimmed (callLog s) ->
  caller_entries_trimmed (callLog (handle env a s)).
Proof.
  intros Hs.
  assert (Hnova : forall entry,
            CallMessage.sender' entry = NovaCall ->
            caller_entries_trimmed (callLog s ++ [message env entry])).
  { intros entry E. apply caller_entries_trimmed_snoc; [exact Hs |].
    simpl. rewrite E. discriminate. }
  destruct a; cbn [handle]; try exact Hs.
  - constructor.
  - apply Hnova. reflexivity.
  - unfold respondWithNextPoint.
    destruct (nextTalkingPoint s); [apply Hnova; reflexivity | exact Hs].
  - unfold addCallerEntry.
    destruct (Js.trim (callerEntry s)) as [| c rest] eqn:T; [exact Hs |].
    simpl. apply caller_entries_trimmed_snoc; [exact Hs |].
    intros _. simpl. split; [discriminate |].
    rewrite <- T. apply trim_idempotent.
  - unfold useClarification.
    destruct (negb (canUseClarification s));
      [exact Hs | apply Hnova; reflexivity].
  - apply Hnova. reflexivity.
Qed.

(** X5. No blank caller entry is ever logged: if every entry of the log
    whose sender is the caller holds a non-empty text without white space
    at its ends, this is still so after any sequence of handler calls. The
    log of the first render, and of a freshly loaded plan, is empty and so
    starts out this way. *)
Theorem caller_entries_stay_trimmed (calls : list (Env * Action)) (s : State) :
  caller_entries_trimmed (callLog s) ->
  caller_entries_trimmed (callLog (run calls s)).
Proof.
  unfold run. revert s.
  induction calls as [| [env a] calls IH]; intros s Hs; [exact Hs |].
  simpl. apply IH, handle_caller_entries, Hs.
Qed.

Lemma caller_entries_stay_trimmed_witness :
  caller_entries_trimmed (callLog seeded)
  /\ caller_entries_trimmed (callLog (run call_session seeded)).
Proof.
  assert (H0 : caller_entries_trimmed (callLog seeded)) by constructor.
  split; [exact H0 |].
  apply (caller_entries_stay_trimmed call_session seeded H0).
Defined.

Lemma handle_openingDisclosure (env : Env) (a : Action) (s : State) :
  a <> LoadDraftToActive ->
  openingDisclosure (activePlan (handle env a s))
  = openingDisclosure (activePlan s).
Proof.
  intros Hne. destruct a; cbn [handle]; try reflexivity.
  - contradiction Hne; reflexivity.
  - unfold respondWithNextPoint. destruct (nextTalkingPoint s); reflexivity.
  - rewrite (proj1 (addCallerEntry_plans env s)). reflexivity.
  - rewrite (proj1 (useClarification_plans env s)). reflexivity.
Qed.

Lemma opening_logged_kept (s s' : State) :
  opening_logged s ->
  callStatus s' = callStatus s ->
  callLog s `prefix_of` callLog s' ->
  openingDisclosure (activePlan s') = openingDisclosure (activePlan s) ->
  opening_logged s'.
Proof.
  intros Hs Est [added Elog] Eop Hlive. rewrite Est in Hlive.
  destruct (Hs Hlive) as [m [Hin [Hsender Hcontent]]].
  exists m. split; [| split].
  - rewrite Elog. apply elem_of_app. left. exact Hin.
  - exact Hsender.
  - rewrite Eop. exact Hcontent.
Qed.

Lemma handle_opening_logged (env : Env) (a : Action) (s : State) :
  opening_logged s -> opening_logged (handle env a s).
Proof.
  intros Hs.
  assert (Hkept : a <> LoadDraftToActive ->
                  callStatus (handle env a s) = callStatus s ->
                  opening_logged (handle env a s)).
  { intros Hload Est. apply (opening_logged_kept s); [exact Hs | exact Est | |].
    - destruct (handle_appends env a s Hload) as [added [E _]].
      exists added. exact E.
    - apply handle_openingDisclosure, Hload. }
  destruct a;
    try (apply Hkept; [discriminate | rewrite handle_callStatus; reflexivity]).
  - intros Hlive. discriminate Hlive.
  - intros _.
    exists (message env
              {| CallMessage.sender' := NovaCall;
                 CallMessage.content' := openingDisclosure (activePlan s) |}).
    split; [| split; reflexivity].
    cbn [handle]. unfold startCall, pushLogEntry. simpl.
    apply elem_of_app. right. apply list_elem_of_singleton. reflexivity.
  - intros Hlive. discriminate Hlive.
Qed.

(** X6. A live call has had its opening disclosure logged: if in a state
    the status is live only when the log holds a NovaCall entry with the
    active plan's opening disclosure, every sequence of handler calls keeps
    it so. The status can only become live through [startCall], which logs
    the disclosure, and nothing but the load removes it or changes the
    active plan's disclosure. *)
Theorem live_call_has_opening_logged
  (calls : list (Env * Action)) (s : State) :
  opening_logged s -> opening_logged (run calls s).
Proof.
  unfold run. revert s.
  induction calls as [| [env a] calls IH]; intros s Hs; [exact Hs |].
  simpl. apply IH, handle_opening_logged, Hs.
Qed.

Lemma live_call_has_opening_logged_witness :
  opening_logged seeded
  /\ opening_logged (run [(env0, StartCall); (env1, RespondWithNextPoint)]
                       seeded).
Proof.
  assert (H0 : opening_logged seeded).
  { intros Hlive. discriminate Hlive. }
  split; [exact H0 |].
  apply (live_call_has_opening_logged
           [(env0, StartCall); (env1, RespondWithNextPoint)] seeded H0).
Defined.

(* ===================================================================== *)
(** ** The log as it is displayed *)
(* ===================================================================== *)

Section SortByKey.

Context {A : Type} (key : A -> Z).

Let by_key (a b : A) : Z := (key a - key b)%Z.

Lemma insert_Permutation (x : A) (l : list A) :
  JsArray.insert by_key x l ≡ₚ x :: l.
Proof.
  induction l as [| y rest IH]; [reflexivity |].
  simpl. destruct (by_key x y <=? 0)%Z; [reflexivity |].
  rewrite IH. apply Permutation_swap.
Qed.

Lemma sort_Permutation (l : list A) : JsArray.sort by_key l ≡ₚ l.
Proof.
  induction l as [| x l IH]; [reflexivity |].
  simpl. rewrite insert_Permutation. fold (JsArray.sort by_key l).
  rewrite IH. reflexivity.
Qed.

Lemma insert_sorted (x : A) (l : list A) :
  StronglySorted Z.le (key <$> l) ->
  StronglySorted Z.le (key <$> JsArray.insert by_key x l).
Proof.
  induction l as [| y rest IH]; intros Hl.
  - simpl. repeat constructor.
  - rewrite fmap_cons in Hl. apply StronglySorted_cons in Hl as [Hy Hrest].
    simpl. destruct (by_key x y <=? 0)%Z eqn:C.
    + apply Z.leb_le in C. unfold by_key in C.
      rewrite !fmap_cons. apply StronglySorted_cons. split.
      * constructor; [lia |].
        eapply Forall_impl; [exact Hy |]. intros z Hz. simpl in Hz. lia.
      * apply StronglySorted_cons. split; assumption.
    + apply Z.leb_gt in C. unfold by_key in C.
      rewrite fmap_cons. apply StronglySorted_cons. split; [| apply IH, Hrest].
      rewrite insert_Permutation, fmap_cons. constructor; [lia | exact Hy].
Qed.

Lemma sort_sorted (l : list A) :
  StronglySorted Z.le (key <$> JsArray.sort by_key l).
Proof.
  induction l as [| x l IH]; [constructor |].
  simpl. apply insert_sorted, IH.
Qed.

Lemma sort_fixes_sorted (l : list A) :
  StronglySorted Z.le (key <$> l) -> JsArray.sort by_key l = l.
Proof.
  induction l as [| x l IH]; intros Hl; [reflexivity |].
  rewrite fmap_cons in Hl. apply StronglySorted_cons in Hl as [Hx Hl].
  simpl. fold (JsArray.sort by_key l). rewrite (IH Hl).
  destruct l as [| y rest]; [reflexivity |].
  rewrite fmap_cons in Hx. apply Forall_cons in Hx as [Hxy _].
  simpl. unfold by_key at 1.
  destruct (key x - key y <=? 0)%Z eqn:C; [reflexivity |].
  apply Z.leb_gt in C. lia.
Qed.

Lemma insert_stable (k : Z) (x : A) (l : list A) :
  filter (fun a => key a = k) (JsArray.insert by_key x l)
  = filter (fun a => key a = k) (x :: l).
Proof.
  induction l as [| y rest IH]; [reflexivity |].
  simpl. destruct (by_key x y <=? 0)%Z eqn:C; [reflexivity |].
  apply Z.leb_gt in C. unfold by_key in C.
  rewrite (filter_cons _ y), IH, !filter_cons.
  destruct (decide (key y = k)), (decide (key x = k)); try reflexivity.
  lia.
Qed.

Lemma sort_stable (k : Z) (l : list A) :
  filter (fun a => key a = k) (JsArray.sort by_key l)
  = filter (fun a => key a = k) l.
Proof.
  induction l as [| x l IH]; [reflexivity |].
  simpl. rewrite insert_stable. fold (JsArray.sort by_key l).
  rewrite !filter_cons, IH. reflexivity.
Qed.

End SortByKey.

(** X7. The displayed log holds exactly the entries of the log, each as
    often as the log does, in ascending order of timestamp, and entries with
    the same timestamp appear in the order in which they were logged. *)
Theorem sortedLog_sorted_stable (s : State) :
  sortedLog s ≡ₚ callLog s
  /\ StronglySorted Z.le (CallMessage.timestamp <$> sortedLog s)
  /\ (forall t : Z,
        filter (fun m => CallMessage.timestamp m = t) (sortedLog s)
        = filter (fun m => CallMessage.timestamp m = t) (callLog s)).
Proof.
  split; [| split].
  - apply (sort_Permutation CallMessage.timestamp).
  - apply (sort_sorted CallMessage.timestamp).
  - intros t. apply (sort_stable CallMessage.timestamp).
Qed.

(** X8. The displayed log is the log itself exactly when the log's
    timestamps never decrease from one entry to the next. *)
Theorem sortedLog_is_log_iff (s : State) :
  sortedLog s = callLog s <-> chronological (callLog s).
Proof.
  split.
  - intros E. unfold chronological. rewrite <- E.
    apply (sort_sorted CallMessage.timestamp).
  - apply (sort_fixes_sorted CallMessage.timestamp).
Qed.

(** A log entry stamped earlier than the one before it is displayed out of
    logging order. *)
Example sortedLog_reorders :
  let s := startCall {| makeId := lit "late"; Date_now := 999 |} seeded_live in
  CallMessage.id <$> callLog s = [lit "m-0"; lit "late"]
  /\ CallMessage.id <$> sortedLog s = [lit "late"; lit "m-0"].
Proof. vm_compute. split; reflexivity. Qed.

(** X9. As long as the clock does not run backwards the display shows the
    log in logging order: if the log is in timestamp order and the time the
    environment answers is not before any logged entry, then after any
    handler call the log is again in timestamp order and the displayed log
    is the log. *)
Theorem handle_keeps_chronological (env : Env) (a : Action) (s : State) :
  chronological (callLog s) ->
  clock_not_behind env s ->
  chronological (callLog (handle env a s))
  /\ sortedLog (handle env a s) = callLog (handle env a s).
Proof.
  intros Hs Hclock.
  assert (Hstep : a <> LoadDraftToActive ->
                  chronological (callLog (handle env a s))).
  { intros Hne.
    destruct (handle_appends_message env a s Hne) as [E | [entry E]];
      rewrite E; [exact Hs |].
    unfold chronological. rewrite fmap_app.
    apply StronglySorted_app_2; [| exact Hs | repeat constructor].
    intros t1 t2 H1 H2. apply list_elem_of_singleton in H2. subst t2.
    apply list_elem_of_fmap in H1 as [m [-> Hm]].
    exact (proj1 (Forall_forall _ _) Hclock m Hm). }
  assert (Hc : chronological (callLog (handle env a s))).
  { destruct a; try (apply Hstep; discriminate). constructor. }
  split; [exact Hc |]. apply (sort_fixes_sorted CallMessage.timestamp), Hc.
Qed.

Lemma handle_keeps_chronological_witness :
  chronological (callLog seeded_live)
  /\ clock_not_behind env1 seeded_live
  /\ chronological (callLog (handle env1 RespondWithNextPoint seeded_live))
  /\ sortedLog (handle env1 RespondWithNextPoint seeded_live)
     = callLog (handle env1 RespondWithNextPoint seeded_live).
Proof.
  assert (Hs : chronological (callLog seeded_live)).
  { repeat constructor. }
  assert (Hclock : clock_not_behind env1 seeded_live).
  { repeat constructor. discriminate. }
  split; [exact Hs |]. split; [exact Hclock |].
  apply (handle_keeps_chronological env1 RespondWithNextPoint seeded_live
           Hs Hclock).
Defined.

(* ===================================================================== *)
(** ** Handing off *)
(* ===================================================================== *)

(** X10. [executeHandoff] has no guard and is not idempotent: from any
    state, whatever the status, it sets the status to handoff, records the
    condition as the reason and appends the transfer announcement, touching
    nothing else; called again it replaces the reason by the later condition
    and appends a second announcement. *)
Theorem executeHandoff_twice (env1' env2' : Env) (c1 c2 : str) (s : State) :
  executeHandoff env1' c1 s
  = {| draftPlan := draftPlan s;
       activePlan := activePlan s;
       callStatus := handoff;
       consentToSummarize := consentToSummarize s;
       summaryNotes := summaryNotes s;
       callLog := callLog s ++ [handoff_message env1'];
       callerEntry := callerEntry s;
       clarificationsUsed := clarificationsUsed s;
       recordingDisclosureMade := recordingDisclosureMade s;
       handoffReason := Some c1 |}
  /\ handoffReason (executeHandoff env2' c2 (executeHandoff env1' c1 s))
     = Some c2
  /\ callLog (executeHandoff env2' c2 (executeHandoff env1' c1 s))
     = callLog s ++ [handoff_message env1'; handoff_message env2'].
Proof.
  split; [reflexivity |]. split; [reflexivity |].
  unfold executeHandoff, pushLogEntry, setCallLog. simpl.
  rewrite <- app_assoc. reflexivity.
Qed.

(** X11. The escalation banner shows after a handoff exactly when the
    condition text is not empty. A condition added in the editor starts out
    empty, so handing off on it, once loaded, leaves the session handed off
    with a recorded reason and no banner. *)
Theorem handoff_banner_needs_text (env : Env) (condition : str) (s : State) :
  (handoffReasonShown (executeHandoff env condition s) = true
   <-> condition <> [])
  /\ (let s' := loadDraftToActive (addHandoffCondition s) in
      last (handoffConditions (activePlan s')) = Some []
      /\ callStatus (executeHandoff env [] s') = handoff
      /\ handoffReason (executeHandoff env [] s') = Some []
      /\ handoffReasonShown (executeHandoff env [] s') = false).
Proof.
  split.
  - unfold handoffReasonShown. simpl.
    destruct condition; simpl; split; congruence.
  - cbv zeta. split; [| repeat split].
    simpl. apply last_snoc.
Qed.

(* ===================================================================== *)
(** ** More on marking talking points *)
(* ===================================================================== *)

(** X12. Toggling an identifier that no talking point of the active plan
    carries changes nothing. *)
Theorem toggle_unknown_id (id : str) (s : State) :
  id ∉ ids (activePlan s) -> toggleTalkingPointDelivered id s = s.
Proof.
  intros Hnotin. unfold toggleTalkingPointDelivered.
  destruct s as [draft [ph pu od tps cl hc an] st co su lg ce cu rd hr].
  unfold setActivePlan, with_talkingPoints. simpl in *.
  rewrite toggle_other_ids by exact Hnotin. reflexivity.
Qed.

Lemma toggle_unknown_id_witness :
  (lit "zz" ∉ ids (activePlan seeded))
  /\ toggleTalkingPointDelivered (lit "zz") seeded = seeded.
Proof.
  assert (H : lit "zz" ∉ ids (activePlan seeded)).
  { unfold ids. simpl. rewrite !not_elem_of_cons. repeat split;
      try apply not_elem_of_nil; discriminate. }
  split; [exact H | apply (toggle_unknown_id (lit "zz") seeded H)].
Defined.

Lemma toggle_point_comm (id1 id2 : str) (point : TalkingPoint.t) :
  toggle_point id1 (toggle_point id2 point)
  = toggle_point id2 (toggle_point id1 point).
Proof.
  unfold toggle_point. destruct point as [i c e d]. simpl.
  destruct (decide (i = id2)), (decide (i = id1)); simpl;
    repeat (rewrite ?decide_True, ?decide_False by assumption; simpl);
    reflexivity.
Qed.

(** X13. Toggles commute: marking two talking points by hand gives the
    same state in either order, whether or not the identifiers differ. *)
Theorem toggles_commute (id1 id2 : str) (s : State) :
  toggleTalkingPointDelivered id1 (toggleTalkingPointDelivered id2 s)
  = toggleTalkingPointDelivered id2 (toggleTalkingPointDelivered id1 s).
Proof.
  unfold toggleTalkingPointDelivered, setActivePlan, with_talkingPoints.
  simpl. do 2 f_equal. rewrite <- !list_fmap_compose.
  apply list_fmap_ext. intros _ point _. apply toggle_point_comm.
Qed.

Lemma completed_le_length (tps : list TalkingPoint.t) :
  length (List.filter TalkingPoint.delivered tps) <= length tps.
Proof.
  induction tps as [| point tps IH]; [reflexivity |].
  simpl. destruct (TalkingPoint.delivered point); simpl; lia.
Qed.

Lemma find_undelivered_none_iff (tps : list TalkingPoint.t) :
  List.find (fun point => negb (TalkingPoint.delivered point)) tps = None
  <-> length (List.filter TalkingPoint.delivered tps) = length tps.
Proof.
  induction tps as [| point tps IH]; [split; reflexivity |].
  pose proof (completed_le_length tps) as Hle.
  simpl. destruct (TalkingPoint.delivered point); simpl.
  - rewrite IH. lia.
  - split; [discriminate | lia].
Qed.

(** X14. The delivered count never exceeds the number of talking points,
    and it reaches that number exactly when there is no next talking point:
    the console's "All points delivered" badge and its N/N counter always
    agree. *)
Theorem completed_count_and_next (s : State) :
  completedTalkingPoints s <= length (talkingPoints (activePlan s))
  /\ (nextTalkingPoint s = None
      <-> completedTalkingPoints s = length (talkingPoints (activePlan s))).
Proof.
  split; [apply completed_le_length | apply find_undelivered_none_iff].
Qed.

(* ===================================================================== *)
(** ** Responding after points were marked by hand *)
(* ===================================================================== *)

Lemma find_undelivered_split (tps : list TalkingPoint.t)
  (point : TalkingPoint.t) :
  List.find (fun p => negb (TalkingPoint.delivered p)) tps = Some point ->
  exists before rest,
    tps = before ++ point :: rest
    /\ Forall (fun p => TalkingPoint.delivered p = true) before
    /\ TalkingPoint.delivered point = false.
Proof.
  induction tps as [| p tps IH]; [discriminate |].
  simpl. destruct (TalkingPoint.delivered p) eqn:D; simpl.
  - intros Hfind. destruct (IH Hfind) as [before [rest [E [Hb Hp]]]].
    exists (p :: before), rest. split; [rewrite E; reflexivity |].
    split; [constructor; assumption | exact Hp].
  - intros Hfind. injection Hfind as <-.
    exists [], tps. split; [reflexivity |]. split; [constructor | exact D].
Qed.

Lemma completed_after_delivery (before rest : list TalkingPoint.t)
  (point : TalkingPoint.t) :
  TalkingPoint.delivered point = false ->
  length (List.filter TalkingPoint.delivered
            (before ++ TalkingPoint.with_delivered true point :: rest))
  = S (length (List.filter TalkingPoint.delivered
                 (before ++ point :: rest))).
Proof.
  intros Hp. rewrite !List.filter_app, !length_app. simpl.
  rewrite Hp. simpl. lia.
Qed.

(** X15. Whatever was marked by hand before, and whatever the status, if
    the active plan's identifiers are distinct and a next talking point
    exists, [respondWithNextPoint] delivers exactly that point: every point
    before it is already delivered, the point itself turns delivered, all
    other points stay as they are, one NovaCall entry with its content is
    logged, and the delivered count grows by one. *)
Theorem respondWithNextPoint_delivers_first_pending
  (env : Env) (s : State) (point : TalkingPoint.t) :
  NoDup (ids (activePlan s)) ->
  nextTalkingPoint s = Some point ->
  exists before rest,
    talkingPoints (activePlan s) = before ++ point :: rest
    /\ Forall (fun p => TalkingPoint.delivered p = true) before
    /\ TalkingPoint.delivered point = false
    /\ respondWithNextPoint env s
       = with_points_and_log
           (before ++ TalkingPoint.with_delivered true point :: rest)
           (callLog s ++ [point_message env point]) s
    /\ completedTalkingPoints (respondWithNextPoint env s)
       = S (completedTalkingPoints s).
Proof.
  intros Hnd Hnext.
  destruct (find_undelivered_split _ _ Hnext) as [before [rest [E [Hb Hp]]]].
  exists before, rest.
  assert (Hstep : respondWithNextPoint env s
                  = with_points_and_log
                      (before ++ TalkingPoint.with_delivered true point :: rest)
                      (callLog s ++ [point_message env point]) s).
  { apply respondWithNextPoint_step; assumption. }
  repeat (split; [assumption |]).
  rewrite Hstep. unfold completedTalkingPoints. simpl. rewrite E.
  apply completed_after_delivery, Hp.
Qed.

Lemma respondWithNextPoint_delivers_first_pending_witness :
  NoDup (ids (activePlan first_marked))
  /\ TalkingPoint.id <$> nextTalkingPoint first_marked = Some (lit "b")
  /\ TalkingPoint.delivered <$>
       talkingPoints (activePlan (respondWithNextPoint env1 first_marked))
     = [true; true; false]
  /\ completedTalkingPoints (respondWithNextPoint env1 first_marked) = 2.
Proof.
  assert (Hnd : NoDup (ids (activePlan first_marked))).
  { unfold ids. simpl. repeat apply NoDup_cons_2; try apply NoDup_nil_2;
      rewrite ?not_elem_of_cons; repeat split;
      try apply not_elem_of_nil; discriminate. }
  split; [exact Hnd |]. split; [reflexivity |].
  destruct (nextTalkingPoint first_marked) as [point |] eqn:Hnext;
    [| discriminate Hnext].
  destruct (respondWithNextPoint_delivers_first_pending env1 first_marked
              point Hnd Hnext) as [before [rest [_ [_ [_ [_ Hcount]]]]]].
  split; [reflexivity |]. rewrite Hcount. reflexivity.
Defined.

(** X16. The generic clarification prompt is never logged: a call of
    [useClarification] either changes nothing, or appends the string at
    position [clarificationsUsed] of the active plan's clarifications and
    advances the counter by one. *)
Theorem useClarification_never_generic (env : Env) (s : State) :
  useClarification env s = s
  \/ exists text,
       clarifications (activePlan s) !! clarificationsUsed s = Some text
       /\ callLog (useClarification env s)
          = callLog s ++ [clarification_message env text]
       /\ clarificationsUsed (useClarification env s)
          = S (clarificationsUsed s).
Proof.
  destruct (clarifications (activePlan s) !! clarificationsUsed s)
    as [text |] eqn:L.
  - right. exists text. rewrite (useClarification_step env s text L).
    repeat split.
  - left. apply useClarification_exhausted, lookup_ge_None, L.
Qed.

(* ===================================================================== *)
(** ** Editing the handoff conditions *)
(* ===================================================================== *)

Lemma with_handoffConditions_same (p : CallPlan) :
  with_handoffConditions (handoffConditions p) p = p.
Proof. destruct p; reflexivity. Qed.

(** X17. [handleHandoffConditionChange] with an index below zero or at or
    beyond the number of conditions returns the state it was given; with
    the index of a condition it replaces that condition by the given text
    and leaves every other condition, their number, the rest of the draft
    and the rest of the state as they were. *)
Theorem handleHandoffConditionChange_at_index
  (index : Z) (value : str) (s : State) :
  let hs := handoffConditions (draftPlan s) in
  let s' := handleHandoffConditionChange index value s in
  ((index < 0 \/ Z.of_nat (length hs) <= index)%Z -> s' = s)
  /\ s' = setDraftPlan
            (with_handoffConditions (handoffConditions (draftPlan s'))) s
  /\ (forall n : nat,
        index = Z.of_nat n ->
        handoffConditions (draftPlan s') = <[n := value]> hs).
Proof.
  cbv zeta. repeat split.
  - intros Hout. unfold handleHandoffConditionChange.
    apply setDraftPlan_same.
    rewrite (imap_at_out_of_range (fun _ => value)) by exact Hout.
    apply with_handoffConditions_same.
  - intros n ->. simpl.
    rewrite (imap_at_in_range (fun _ => value)).
    symmetry. apply list_insert_alter.
Qed.

Section RemoveAt.

Context {A : Type}.

(** The filter of [removeHandoffCondition], on positions counted from
    [k]. *)
Lemma filter_position_from (index : Z) (l : list A) (k : nat) :
  snd <$> filter (fun ic : nat * A => Z.of_nat (fst ic) <> index)
            (imap (fun i x => (k + i, x)) l)
  = if decide (Z.of_nat k <= index < Z.of_nat (k + length l))%Z
    then delete (Z.to_nat index - k) l else l.
Proof.
  revert k. induction l as [| x l IH]; intros k.
  - simpl. destruct (decide _); reflexivity.
  - rewrite imap_cons.
    rewrite (imap_ext _ (fun i y => (S k + i, y)));
      [| intros i y _; simpl; f_equal; lia].
    rewrite filter_cons. cbn [fst].
    destruct (decide (Z.of_nat (k + 0) <> index)) as [Hne | Heq].
    + rewrite fmap_cons, IH. cbn [snd length].
      destruct (decide (Z.of_nat (S k) <= index < Z.of_nat (S k + length l))%Z)
        as [Hin | Hout].
      * rewrite decide_True by lia.
        replace (Z.to_nat index - k) with (S (Z.to_nat index - S k)) by lia.
        reflexivity.
      * rewrite decide_False by lia. reflexivity.
    + apply dec_stable in Heq. rewrite IH. cbn [length].
      rewrite decide_False by lia. rewrite decide_True by lia.
      replace (Z.to_nat index - k) with 0 by lia. reflexivity.
Qed.

Lemma filter_position (index : Z) (l : list A) :
  snd <$> filter (fun ic : nat * A => Z.of_nat (fst ic) <> index)
            (imap pair l)
  = if decide (0 <= index < Z.of_nat (length l))%Z
    then delete (Z.to_nat index) l else l.
Proof.
  rewrite (imap_ext pair (fun i x => (0 + i, x))) by reflexivity.
  rewrite filter_position_from. simpl. rewrite Nat.sub_0_r. reflexivity.
Qed.

End RemoveAt.

(** X18. [removeHandoffCondition] with the index of a condition deletes
    that one condition, keeping the others in order; with an index below
    zero or at or beyond the number of conditions it returns the state it
    was given. Nothing but the draft's handoff conditions is touched. *)
Theorem removeHandoffCondition_at_index (index : Z) (s : State) :
  let hs := handoffConditions (draftPlan s) in
  let s' := removeHandoffCondition index s in
  ((index < 0 \/ Z.of_nat (length hs) <= index)%Z -> s' = s)
  /\ s' = setDraftPlan
            (with_handoffConditions (handoffConditions (draftPlan s'))) s
  /\ (forall n : nat,
        index = Z.of_nat n -> n < length hs ->
        handoffConditions (draftPlan s') = take n hs ++ drop (S n) hs
        /\ S (length (handoffConditions (draftPlan s'))) = length hs).
Proof.
  cbv zeta. repeat split.
  - intros Hout. unfold removeHandoffCondition. apply setDraftPlan_same.
    rewrite filter_position, decide_False by lia.
    apply with_handoffConditions_same.
  - subst index. simpl. rewrite filter_position, decide_True by lia.
    rewrite Nat2Z.id. apply delete_take_drop.
  - subst index. simpl. rewrite filter_position, decide_True by lia.
    rewrite Nat2Z.id, length_delete by (apply lookup_lt_is_Some; lia). lia.
Qed.

(** X19. Adding a handoff condition and then removing the last one gives
    the state back: the appended condition is the empty text at the end of
    the list. *)
Theorem add_then_remove_handoff_condition (s : State) :
  handoffConditions (draftPlan (addHandoffCondition s))
  = handoffConditions (draftPlan s) ++ [ [] ]
  /\ removeHandoffCondition
       (Z.of_nat (length (handoffConditions (draftPlan s))))
       (addHandoffCondition s)
     = s.
Proof.
  split; [reflexivity |].
  unfold removeHandoffCondition, addHandoffCondition.
  rewrite setDraftPlan_twice. apply setDraftPlan_same.
  destruct (draftPlan s) as [ph pu od tps cl hc an].
  unfold with_handoffConditions. simpl. f_equal.
  rewrite filter_position, length_app. simpl.
  rewrite decide_True by lia. rewrite Nat2Z.id.
  rewrite delete_middle, app_nil_r. reflexivity.
Qed.

(* ===================================================================== *)
(** ** Adding a talking point and taking it back *)
(* ===================================================================== *)

(** X20. Removing the talking point that was just added gives the state
    back, provided the identifier [makeId()] answered is carried by no point
    of the draft. *)
Theorem add_then_remove_talking_point (env : Env) (s : State) :
  makeId env ∉ ids (draftPlan s) ->
  removeTalkingPoint (makeId env) (addTalkingPoint env s) = s.
Proof.
  intros Hfresh. unfold removeTalkingPoint, addTalkingPoint.
  rewrite setDraftPlan_twice. apply setDraftPlan_same.
  unfold ids in Hfresh.
  destruct (draftPlan s) as [ph pu od tps cl hc an].
  unfold with_talkingPoints. simpl in *. f_equal.
  rewrite filter_app, filter_other_ids by exact Hfresh.
  rewrite filter_cons_False by (simpl; intros H; apply H; reflexivity).
  rewrite filter_nil, app_nil_r. reflexivity.
Qed.

Lemma add_then_remove_talking_point_witness :
  (makeId env1 ∉ ids (draftPlan seeded))
  /\ removeTalkingPoint (makeId env1) (addTalkingPoint env1 seeded) = seeded.
Proof.
  assert (H : makeId env1 ∉ ids (draftPlan seeded)).
  { unfold ids. simpl. rewrite !not_elem_of_cons. repeat split;
      try apply not_elem_of_nil; discriminate. }
  split; [exact H | apply (add_then_remove_talking_point env1 seeded H)].
Defined.

(** When [makeId()] answers an identifier already in the draft, taking the
    new point back takes the older point with it. *)
Example add_then_remove_with_collision :
  let env := {| makeId := lit "b"; Date_now := 0 |} in
  ids (draftPlan (removeTalkingPoint (lit "b") (addTalkingPoint env seeded)))
  = [lit "a"; lit "c"].
Proof. reflexivity. Qed.

(* ===================================================================== *)
(** ** Editing the fields of the draft *)
(* ===================================================================== *)


(* ===================================================================== *)
(** ** Controls and handlers on the rendered page *)
(* ===================================================================== *)




Lemma handle_handoffReason (env : Env) (a : Action) (s : State) :
  handoffReason (handle env a s)
  = match a with
    | LoadDraftToActive => None
    | ExecuteHandoff condition => Some condition
    | _ => handoffReason s
    end.
Proof.
  destruct a; cbn [handle]; try reflexivity.
  - unfold respondWithNextPoint. destruct (nextTalkingPoint s); reflexivity.
  - unfold addCallerEntry.
    destruct (negb (Js.truthy (Js.trim (callerEntry s)))); reflexivity.
  - unfold useClarification.
    destruct (negb (canUseClarification s)); reflexivity.
Qed.

(** X24. On every state of the page a handoff reason is recorded exactly
    when the status is handoff. (Handlers called directly can break this:
    [startCall] on a handed-off session makes it live and keeps the
    reason.) *)
Theorem page_reason_matches_status (s : State) :
  reachable s -> reason_matches_status s.
Proof.
  induction 1 as [id1 id2 id3 _ | s env a _ IH _].
  - split; [discriminate | intros H; contradiction H; reflexivity].
  - unfold dispatch. destruct (enabled s a) eqn:En; [| exact IH].
    unfold reason_matches_status in *.
    rewrite handle_callStatus, handle_handoffReason.
    destruct a; try exact IH.
    + split; [discriminate | intros H; contradiction H; reflexivity].
    + simpl in En. destruct (callStatus s) eqn:St; try discriminate En.
      split; [discriminate |]. intros Hr. apply IH in Hr. discriminate Hr.
    + split; [discriminate | reflexivity].
Qed.

Lemma seeded_reachable : reachable seeded.
Proof.
  apply reachable_first.
  repeat apply NoDup_cons_2; try apply NoDup_nil_2;
    rewrite ?not_elem_of_cons; repeat split;
    try apply not_elem_of_nil; discriminate.
Defined.

(** The seeded page after the start button and a handoff button were
    used. *)
Lemma page_handoff_reachable :
  reachable
    (dispatch env1
       (ExecuteHandoff (lit "Caller requests to speak with Manohar directly."))
       (dispatch env0 StartCall seeded)).
Proof.
  apply reachable_event; [| exact I].
  apply reachable_event; [exact seeded_reachable | exact I].
Defined.

Lemma page_reason_matches_status_witness :
  reachable seeded_handoff /\ reason_matches_status seeded_handoff.
Proof.
  split; [exact page_handoff_reachable |].
  apply (page_reason_matches_status seeded_handoff page_handoff_reachable).
Defined.

(** A direct call of [startCall] on a handed-off session: the status is
    live and the reason is still recorded. *)
Example startCall_keeps_reason :
  callStatus (startCall env2 seeded_handoff) = live
  /\ handoffReason (startCall env2 seeded_handoff)
     = Some (lit "Caller requests to speak with Manohar directly.").
Proof. split; reflexivity. Qed.

Lemma handle_summaryNotes (env : Env) (a : Action) (s : State) :
  summaryNotes (handle env a s)
  = match a with
    | LoadDraftToActive => []
    | SetSummaryNotes value => value
    | _ => summaryNotes s
    end.
Proof.
  destruct a; cbn [handle]; try reflexivity.
  - unfold respondWithNextPoint. destruct (nextTalkingPoint s); reflexivity.
  - unfold addCallerEntry.
    destruct (negb (Js.truthy (Js.trim (callerEntry s)))); reflexivity.
  - unfold useClarification.
    destruct (negb (canUseClarification s)); reflexivity.
Qed.

(** X25. On the page the summary is written only under consent: a user
    event changes the summary only if it is the load, which empties it, or
    an edit of the textarea while consent is given. Withdrawing consent
    afterwards keeps the summary that was written. *)
Theorem page_summary_needs_consent (env : Env) (a : Action) (s : State) :
  summaryNotes (dispatch env a s)
  = match a with
    | LoadDraftToActive => []
    | SetSummaryNotes value =>
        if consentToSummarize s then value else summaryNotes s
    | _ => summaryNotes s
    end.
Proof.
  unfold dispatch. destruct (enabled s a) eqn:En.
  - rewrite handle_summaryNotes. destruct a; try reflexivity.
    simpl in En. rewrite En. reflexivity.
  - destruct a; try reflexivity; try discriminate En.
    simpl in En. rewrite En. reflexivity.
Qed.

Lemma reachable_distinct_ids_witness :
  reachable seeded_handoff /\ distinct_ids seeded_handoff.
Proof.
  split; [exact page_handoff_reachable |].
  apply (reachable_distinct_ids seeded_handoff page_handoff_reachable).
Defined.
